(** * linuxfd: the timerfd extension module (timerfd_c.c)

    A shallow embedding of the five functions exported by [timerfd_c.c]
    and of the conversions between C doubles and the kernel's
    [struct itimerspec], followed by the properties of that code.

    Conventions of the embedding:
    - the platform is Linux LP64: [int] has 32 bits, [long], [time_t] and
      [ssize_t] have 64 bits, integers are two's complement;
    - a C [double] is an IEEE 754 binary64 value, represented by the
      Standard Library's [spec_float] with [prec = 53], [emax = 1024]; the
      arithmetic operators of C are the correctly rounded [SFadd], [SFsub],
      [SFmul], [SFdiv];
    - a conversion from [double] to an integer type whose result does not
      fit has no defined behaviour in C (6.3.1.4); it is [None] here;
    - the C library functions the module calls ([timerfd_create],
      [timerfd_settime], [timerfd_gettime], [read]) are an interface
      ([Libc]); a call returns its result and the new process state, which
      holds [errno];
    - [Py_BEGIN_ALLOW_THREADS] / [Py_END_ALLOW_THREADS] release and retake
      the interpreter lock and preserve [errno]; they are the identity on
      the process state of the calling thread;
    - a signal that arrives is recorded by the interpreter, and its Python
      handler runs when [PyErr_CheckSignals] is called; the process state
      holds what the handlers of the recorded signals will do. *)

From Stdlib Require Import ZArith QArith Qround Qabs Qpower Lia Lqa Bool SpecFloat.
From Stdlib Require String.

Local Open Scope Z_scope.

(** ** C integer types (LP64) *)

Module C.

Definition INT_MIN : Z := - 2 ^ 31.
Definition INT_MAX : Z := 2 ^ 31 - 1.
Definition LONG_MIN : Z := - 2 ^ 63.
Definition LONG_MAX : Z := 2 ^ 63 - 1.
Definition UINT64_MAX : Z := 2 ^ 64 - 1.

Definition in_int (z : Z) : bool := (INT_MIN <=? z) && (z <=? INT_MAX).
Definition in_long (z : Z) : bool := (LONG_MIN <=? z) && (z <=? LONG_MAX).

(** Conversion of an integer to a signed type of [w] bits: the value
    modulo [2^w], taken in [[-2^(w-1), 2^(w-1))]. *)
Definition wrap_signed (w : Z) (z : Z) : Z :=
  (z + 2 ^ (w - 1)) mod 2 ^ w - 2 ^ (w - 1).

Definition to_int (z : Z) : Z := wrap_signed 32 z.
Definition to_long (z : Z) : Z := wrap_signed 64 z.

(** [errno] values of <errno.h> on Linux. *)
Definition EINTR : Z := 4.
Definition EIO : Z := 5.
Definition EBADF : Z := 9.
Definition EAGAIN : Z := 11.
Definition EINVAL : Z := 22.

End C.

(** ** C doubles *)

Module Double.

Definition prec : Z := 53.
Definition emax : Z := 1024.

Definition double : Type := spec_float.

Definition add : double -> double -> double := SFadd prec emax.
Definition sub : double -> double -> double := SFsub prec emax.
Definition mul : double -> double -> double := SFmul prec emax.
Definition div : double -> double -> double := SFdiv prec emax.
Definition ltb : double -> double -> bool := SFltb.

(** [(double)n] for an integer [n]: the nearest double. *)
Definition of_Z (n : Z) : double := binary_normalize prec emax n 0 false.

(** The constant [1e9] of the source. *)
Definition d_1e9 : double := S754_finite false 8388608000000000 (-23).

Definition is_finite (x : double) : bool :=
  match x with
  | S754_zero _ | S754_finite _ _ _ => true
  | _ => false
  end.

(** A double as the module can receive it from Python: a zero, an
    infinity, a NaN or a finite number in canonical form. *)
Definition valid (x : double) : bool := valid_binary prec emax x.

(** The integral part of a finite double, rounded toward zero. *)
Definition trunc (x : double) : option Z :=
  match x with
  | S754_zero _ => Some 0
  | S754_finite s m e => Some (cond_Zopp s (Z.shiftl (Zpos m) e))
  | _ => None
  end.

(** [(int)x]: defined when the integral part fits in an [int]. *)
Definition to_int (x : double) : option Z :=
  match trunc x with
  | Some z => if C.in_int z then Some z else None
  | None => None
  end.

(** [(long int)x] and [(time_t)x]: defined when the integral part fits
    in a [long]. *)
Definition to_long (x : double) : option Z :=
  match trunc x with
  | Some z => if C.in_long z then Some z else None
  | None => None
  end.

(** What x86-64 does where C leaves [(int)x] undefined: [cvttsd2si]
    returns the "integer indefinite" value, [INT_MIN]. *)
Definition to_int_x86 (x : double) : Z :=
  match to_int x with
  | Some z => z
  | None => C.INT_MIN
  end.

Definition to_long_x86 (x : double) : Z :=
  match to_long x with
  | Some z => z
  | None => C.LONG_MIN
  end.

(** The real number a double stands for (0 for what is not finite). *)
Definition to_Q (x : double) : Q :=
  match x with
  | S754_finite s m e => inject_Z (cond_Zopp s (Zpos m)) * Qpower 2 e
  | _ => 0%Q
  end.

End Double.

Import Double.

(** ** The kernel's time structures *)

Record timespec := { tv_sec : Z; tv_nsec : Z }.
Record itimerspec := { it_interval : timespec; it_value : timespec }.

(** ** Python objects and results of an extension function *)

Inductive pyobject :=
| PyLong (z : Z)
| PyFloat (d : double)
| PyTuple2 (a b : pyobject).

(** [OSError code] is an instance of [OSError], or of the subclass that
    Python selects from the error code, with [errno = code]; the last two
    are what a signal handler written in Python can raise:
    [KeyboardInterrupt] (the default handler of SIGINT) or an instance of
    another class. *)
Inductive exception :=
| OSError (code : Z)
| OverflowError
| KeyboardInterrupt
| OtherException (class : String.string).

(** An extension function returns an object, or returns NULL with an
    exception set; [Undefined] is a call whose C code has no defined
    behaviour. *)
Inductive outcome :=
| Return (v : pyobject)
| Raise (e : exception)
| Undefined.

(** ** The process and the C library *)

(** [signals]: what the Python handlers of the signals that have arrived
    and are not handled yet do when they run: [Some e] when a handler
    raises [e], [None] when no signal is recorded or the handlers return. *)
Record process (K : Type) := {
  errno : Z;
  kernel : K;
  signals : option exception
}.
Arguments errno {K} _.
Arguments kernel {K} _.
Arguments signals {K} _.

Definition set_errno {K} (e : Z) (p : process K) : process K :=
  {| errno := e; kernel := kernel p; signals := signals p |}.

Class Libc (K : Type) := {
  (** [int timerfd_create(int clockid, int flags)] *)
  timerfd_create : Z -> Z -> process K -> Z * process K;
  (** [int timerfd_settime(int fd, int flags, const struct itimerspec *new_value,
      struct itimerspec *old_value)]: the result and [*old_value] *)
  timerfd_settime : Z -> Z -> itimerspec -> process K -> Z * itimerspec * process K;
  (** [int timerfd_gettime(int fd, struct itimerspec *curr_value)] *)
  timerfd_gettime : Z -> process K -> Z * itimerspec * process K;
  (** [ssize_t read(int fd, void *buf, size_t count)] with [count = 8]:
      the result and the [uint64_t] the buffer holds afterwards *)
  read : Z -> process K -> Z * Z * process K
}.

(** ** Argument parsing ([PyArg_ParseTuple]) *)

(** Format ["i"]: a Python integer to a C [int]; OverflowError when it
    does not fit. *)
Definition parse_i (z : Z) : option Z := if C.in_int z then Some z else None.

(** Format ["l"]: a Python integer to a C [long]. *)
Definition parse_l (z : Z) : option Z := if C.in_long z then Some z else None.

(** [_timerfd_settime_ns] passes the address of an [int] variable for
    format ["l"]: the 8 bytes of the [long] are stored at the address of a
    4-byte object. On a little-endian machine the variable is left with
    the low 32 bits; the 4 bytes stored past it are not modelled. *)
Definition store_l_in_int (l : Z) : Z := C.to_int l.

(** [int PyErr_CheckSignals(void)]: runs the handlers of the recorded
    signals; the result is the exception a handler raised (the function
    returns -1 with that exception set), and no signal is recorded
    afterwards. *)
Definition PyErr_CheckSignals {K} (p : process K) : option exception * process K :=
  (signals p, {| errno := errno p; kernel := kernel p; signals := None |}).

(** [PyErr_SetFromErrno(PyExc_OSError)]: raises OSError with the current
    [errno]; when [errno] is EINTR it calls [PyErr_CheckSignals] first,
    and leaves the exception of a handler set instead. It returns NULL in
    every case. *)
Definition PyErr_SetFromErrno {K} (p : process K) : outcome * process K :=
  let i := errno p in
  if i =? C.EINTR then
    match PyErr_CheckSignals p with
    | (Some e, p) => (Raise e, p)
    | (None, p) => (Raise (OSError i), p)
    end
  else (Raise (OSError i), p).

(** ** Conversions between doubles and timespecs *)

(** Lines 108-109 and 111-112:
    [tv_sec = (time_t)value; tv_nsec = (long int)(1e9 * (value - (int)value))]. *)
Definition timespec_of_double (value : double) : option timespec :=
  match to_long value, to_int value with
  | Some sec, Some i =>
      match to_long (mul d_1e9 (sub value (of_Z i))) with
      | Some nsec => Some {| tv_sec := sec; tv_nsec := nsec |}
      | None => None
      end
  | _, _ => None
  end.

(** The same two lines as x86-64 executes them. *)
Definition timespec_of_double_x86 (value : double) : timespec :=
  {| tv_sec := to_long_x86 value;
     tv_nsec := to_long_x86 (mul d_1e9 (sub value (of_Z (to_int_x86 value)))) |}.

(** Lines 81, 121 and 151: [(double)ts.tv_sec + (double)ts.tv_nsec / 1e9]. *)
Definition double_of_timespec (ts : timespec) : double :=
  add (of_Z (tv_sec ts)) (div (of_Z (tv_nsec ts)) d_1e9).

(** [Py_BuildValue("(dd)", value, interval)] on a converted itimerspec. *)
Definition build_tuple (its : itimerspec) : pyobject :=
  PyTuple2 (PyFloat (double_of_timespec (it_value its)))
           (PyFloat (double_of_timespec (it_interval its))).

(** Lines 68-72: the itimerspec of [_timerfd_settime_ns]. *)
Definition itimerspec_of_ns (value interval : Z) : itimerspec :=
  {| it_interval := {| tv_sec := 0; tv_nsec := C.to_long interval |};
     it_value := {| tv_sec := 0; tv_nsec := C.to_long value |} |}.

(** Lines 108-112: the itimerspec of [_timerfd_settime]. *)
Definition itimerspec_of_doubles (value interval : double) : option itimerspec :=
  match timespec_of_double value, timespec_of_double interval with
  | Some v, Some i => Some {| it_interval := i; it_value := v |}
  | _, _ => None
  end.

(** The same lines as x86-64 executes them. *)
Definition itimerspec_of_doubles_x86 (value interval : double) : itimerspec :=
  {| it_interval := timespec_of_double_x86 interval;
     it_value := timespec_of_double_x86 value |}.

(** ** The exported functions *)

Section Exported.

Context {K : Type} {libc : Libc K}.

Definition _timerfd_create (clockid flags : Z) (p : process K)
  : outcome * process K :=
  match parse_i clockid, parse_i flags with
  | Some clockid, Some flags =>
      let '(result, p) := timerfd_create clockid flags p in
      if result =? -1 then PyErr_SetFromErrno p
      else (Return (PyLong result), p)
  | _, _ => (Raise OverflowError, p)
  end.

Definition _timerfd_settime_ns (fd flags value interval : Z) (p : process K)
  : outcome * process K :=
  match parse_i fd, parse_i flags, parse_l value, parse_l interval with
  | Some fd, Some flags, Some lvalue, Some linterval =>
      let value := store_l_in_int lvalue in
      let interval := store_l_in_int linterval in
      let new_value := itimerspec_of_ns value interval in
      let '(result, old_value, p) := timerfd_settime fd flags new_value p in
      if result =? -1 then PyErr_SetFromErrno p
      else (Return (build_tuple old_value), p)
  | _, _, _, _ => (Raise OverflowError, p)
  end.

Definition _timerfd_settime (fd flags : Z) (value interval : double)
    (p : process K) : outcome * process K :=
  match parse_i fd, parse_i flags with
  | Some fd, Some flags =>
      match itimerspec_of_doubles value interval with
      | Some new_value =>
          let '(result, old_value, p) := timerfd_settime fd flags new_value p in
          if result =? -1 then PyErr_SetFromErrno p
          else (Return (build_tuple old_value), p)
      | None => (Undefined, p)
      end
  | _, _ => (Raise OverflowError, p)
  end.

(** [_timerfd_settime] as x86-64 executes it: the conversions of lines
    108-112 have a result for every double. *)
Definition _timerfd_settime_x86 (fd flags : Z) (value interval : double)
    (p : process K) : outcome * process K :=
  match parse_i fd, parse_i flags with
  | Some fd, Some flags =>
      let new_value := itimerspec_of_doubles_x86 value interval in
      let '(result, old_value, p) := timerfd_settime fd flags new_value p in
      if result =? -1 then PyErr_SetFromErrno p
      else (Return (build_tuple old_value), p)
  | _, _ => (Raise OverflowError, p)
  end.

Definition _timerfd_gettime (fd : Z) (p : process K) : outcome * process K :=
  match parse_i fd with
  | Some fd =>
      let '(result, curr_value, p) := timerfd_gettime fd p in
      if result =? -1 then PyErr_SetFromErrno p
      else (Return (build_tuple curr_value), p)
  | None => (Raise OverflowError, p)
  end.

(** [PyLong_FromLong(buffer)]: the [uint64_t] is converted to the [long]
    parameter. *)
Definition PyLong_FromLong (v : Z) : pyobject := PyLong (C.to_long v).

Definition _timerfd_read (fd : Z) (p : process K) : outcome * process K :=
  match parse_i fd with
  | Some fd =>
      let '(result, buffer, p) := read fd p in
      if result =? -1 then PyErr_SetFromErrno p
      else if negb (result =? 8) then
        let p := set_errno C.EIO p in PyErr_SetFromErrno p
      else (Return (PyLong_FromLong buffer), p)
  | None => (Raise OverflowError, p)
  end.

End Exported.

(** ** Two C libraries to run the module against *)

(** What the kernel accepts as a time: [timespec64_valid] of
    <linux/time64.h>, used by [timerfd_settime] on both fields
    (EINVAL otherwise, see timerfd_create(2)). *)
Definition timespec_valid (ts : timespec) : bool :=
  (0 <=? tv_sec ts) && (0 <=? tv_nsec ts) && (tv_nsec ts <? 1000000000).

Definition itimerspec_valid (its : itimerspec) : bool :=
  timespec_valid (it_interval its) && timespec_valid (it_value its).

(** A kernel with at most one timer, on descriptor 3, as timerfd_create(2)
    describes the calls; time does not pass on its own, the expiration
    counter is part of the state. It knows the clocks CLOCK_REALTIME (0)
    and CLOCK_MONOTONIC (1) and no creation flags, a read that finds the
    counter at zero is cut short with EAGAIN, and no signal arrives. *)
Module Sim.

Record state := {
  is_open : bool;
  spec : itimerspec;
  ticks : Z
}.

Definition disarmed : itimerspec :=
  {| it_interval := {| tv_sec := 0; tv_nsec := 0 |};
     it_value := {| tv_sec := 0; tv_nsec := 0 |} |}.

Definition fail (e : Z) (p : process state) : Z * process state :=
  (-1, set_errno e p).

Definition with_kernel (k : state) (p : process state) : process state :=
  {| errno := errno p; kernel := k; signals := signals p |}.

Definition is_timer (fd : Z) (p : process state) : bool :=
  (fd =? 3) && is_open (kernel p).

Definition create (clockid flags : Z) (p : process state) : Z * process state :=
  if ((clockid =? 0) || (clockid =? 1)) && (flags =? 0) then
    (3, with_kernel {| is_open := true; spec := disarmed; ticks := 0 |} p)
  else fail C.EINVAL p.

(** The flags [timerfd_settime] accepts: TFD_TIMER_ABSTIME (1) and
    TFD_TIMER_CANCEL_ON_SET (2). *)
Definition settime_flags_valid (flags : Z) : bool :=
  (0 <=? flags) && (flags <=? 3).

(** The kernel checks the flags and the new value before it looks the
    descriptor up. *)
Definition settime (fd flags : Z) (new_value : itimerspec) (p : process state)
  : Z * itimerspec * process state :=
  if negb (settime_flags_valid flags && itimerspec_valid new_value) then
    let '(r, p) := fail C.EINVAL p in (r, disarmed, p)
  else if negb (is_timer fd p) then
    let '(r, p) := fail C.EBADF p in (r, disarmed, p)
  else
    (0, spec (kernel p),
     with_kernel {| is_open := true; spec := new_value; ticks := 0 |} p).

Definition gettime (fd : Z) (p : process state) : Z * itimerspec * process state :=
  if negb (is_timer fd p) then
    let '(r, p) := fail C.EBADF p in (r, disarmed, p)
  else (0, spec (kernel p), p).

Definition read8 (fd : Z) (p : process state) : Z * Z * process state :=
  if negb (is_timer fd p) then
    let '(r, p) := fail C.EBADF p in (r, 0, p)
  else if ticks (kernel p) =? 0 then
    let '(r, p) := fail C.EAGAIN p in (r, 0, p)
  else
    (8, ticks (kernel p),
     with_kernel {| is_open := true; spec := spec (kernel p); ticks := 0 |} p).

#[export] Instance libc : Libc state := {
  timerfd_create := create;
  timerfd_settime := settime;
  timerfd_gettime := gettime;
  read := read8
}.

(** A process with an open, disarmed timer whose counter holds [n]. *)
Definition started (n : Z) : process state :=
  {| errno := 0; kernel := {| is_open := true; spec := disarmed; ticks := n |};
     signals := None |}.

(** A process without a timer. *)
Definition fresh : process state :=
  {| errno := 0; kernel := {| is_open := false; spec := disarmed; ticks := 0 |};
     signals := None |}.

End Sim.

(** A C library that answers every call from a script: the result, the
    [errno] it sets when the result is -1, and the output arguments. *)
Module Script.

Record state := {
  result : Z;
  error : Z;
  out_spec : itimerspec;
  out_buffer : Z
}.

Definition after (p : process state) : process state :=
  if result (kernel p) =? -1 then set_errno (error (kernel p)) p else p.

Definition libc : Libc state := {|
  timerfd_create := fun _ _ p => (result (kernel p), after p);
  timerfd_settime := fun _ _ _ p => (result (kernel p), out_spec (kernel p), after p);
  timerfd_gettime := fun _ p => (result (kernel p), out_spec (kernel p), after p);
  read := fun _ p => (result (kernel p), out_buffer (kernel p), after p)
|}.

Definition run (r e : Z) (s : itimerspec) (b : Z) : process state :=
  {| errno := 0;
     kernel := {| result := r; error := e; out_spec := s; out_buffer := b |};
     signals := None |}.


End Script.

(** ** Notions used to state the properties of the rounding *)

(** [represents N D mrs]: the record [mrs], a mantissa with a round bit and
    a sticky bit, locates the rational [N / D]: its mantissa is the floor,
    the round bit says that the remainder is at least one half, the sticky
    bit that it differs from 0 and from one half. *)
Definition represents (N D : Z) (mrs : shr_record) : Prop :=
  shr_m mrs = N / D /\
  shr_r mrs = (D <=? 2 * (N mod D)) /\
  shr_s mrs = negb (N mod D =? 0) && negb (2 * (N mod D) =? D).

Abbreviation fexp64 := (fexp prec emax).

(** Case analysis on the comparisons that define the round and sticky
    bits. *)
Ltac decide_bits :=
  repeat match goal with
         | |- context [Z.leb ?a ?b] => destruct (Z.leb_spec a b)
         | |- context [Z.eqb ?a ?b] => destruct (Z.eqb_spec a b)
         end;
  cbn [negb andb orb]; try reflexivity; try lia.

(** [is_float r s R e]: [r] is the finite double of sign [s] and
    magnitude [R * 2^e]. *)
Definition is_float (r : double) (s : bool) (R e : Z) : Prop :=
  match r with
  | S754_zero s' => s' = s /\ R = 0
  | S754_finite s' m e' => s' = s /\ e <= e' /\ Zpos m * 2 ^ (e' - e) = R
  | _ => False
  end.

(** The integral part of the magnitude of a finite double. *)
Definition int_part (m : positive) (e : Z) : Z := Z.shiftl (Zpos m) e.

(** The fractional part of the magnitude, in units of [2^e]. *)
Definition frac_part (m : positive) (e : Z) : Z :=
  if e <? 0 then Zpos m mod 2 ^ (- e) else 0.

(** The mantissa of [1e9]. *)
Definition m_1e9 : Z := 8388608000000000.


(** [floor_split d ts]: the seconds of [ts] are the floor of [d], and its
    nanoseconds are the floor of [10^9] times the fractional remainder of
    [d], or one more. *)
Definition floor_split (d : double) (ts : timespec) : Prop :=
  tv_sec ts = Qfloor (to_Q d) /\
  let k := Qfloor (1000000000 * (to_Q d - inject_Z (Qfloor (to_Q d)))) in
  tv_nsec ts = k \/ tv_nsec ts = k + 1.

(** The rational a timespec stands for: [tv_sec + tv_nsec / 10^9]. *)
Definition timespec_to_Q (ts : timespec) : Q :=
  inject_Z (tv_sec ts) + inject_Z (tv_nsec ts) * (1 # 1000000000).

(** A C library whose [timerfd_settime] fails on an itimerspec the kernel
    does not accept. *)
Definition rejects_invalid {K} (libc : Libc K) : Prop :=
  forall fd flags its p,
    itimerspec_valid its = false ->
    fst (fst (timerfd_settime fd flags its p)) = -1.

(** A C library whose [timerfd_settime] fails with EINVAL on such an
    itimerspec, as timerfd_settime(2) says. *)
Definition rejects_with_EINVAL {K} (libc : Libc K) : Prop :=
  forall fd flags its p,
    itimerspec_valid its = false ->
    fst (fst (timerfd_settime fd flags its p)) = -1 /\
    errno (snd (timerfd_settime fd flags its p)) = C.EINVAL.


(** ** Some doubles *)

(** [3e9], a time after 2038 in seconds since the epoch. *)
Definition d_3e9 : double := S754_finite false 6291456000000000 (-21).

(** [524288 + 103 * 2^-33], about six days. *)
Definition d_six_days : double := S754_finite false 4503599627370599 (-33).

(** [-1e-10], a tenth of a nanosecond before zero. *)
Definition d_minus_1e_10 : double := S754_finite true 7737125245533627 (-86).

(** [0.75] and [1.5]. *)
Definition d_0_75 : double := S754_finite false 6755399441055744 (-53).
Definition d_1_5 : double := S754_finite false 6755399441055744 (-52).

(** [0.3] and [0.01], the doubles nearest to them. *)
Definition d_0_3 : double := S754_finite false 5404319552844595 (-54).
Definition d_0_01 : double := S754_finite false 5764607523034235 (-59).

(** [-0.5]. *)
Definition d_minus_0_5 : double := S754_finite true 4503599627370496 (-53).

(** A timespec with both fields negated. *)
Definition neg_timespec (ts : timespec) : timespec :=
  {| tv_sec := - tv_sec ts; tv_nsec := - tv_nsec ts |}.

(** * Properties *)

(** ** Integer conversions *)

Lemma to_long_id (z : Z) : C.in_long z = true -> C.to_long z = z.
Proof.
  unfold C.in_long, C.LONG_MIN, C.LONG_MAX, C.to_long, C.wrap_signed.
  intros H. apply andb_prop in H. destruct H as [Hlo Hhi].
  apply Z.leb_le in Hlo. apply Z.leb_le in Hhi.
  change (2 ^ (64 - 1)) with 9223372036854775808 in *.
  change (2 ^ 64) with 18446744073709551616 in *.
  change (2 ^ 63) with 9223372036854775808 in *.
  rewrite Z.mod_small; lia.
Qed.

Lemma to_int_id (z : Z) : C.in_int z = true -> C.to_int z = z.
Proof.
  unfold C.in_int, C.INT_MIN, C.INT_MAX, C.to_int, C.wrap_signed.
  intros H. apply andb_prop in H. destruct H as [Hlo Hhi].
  apply Z.leb_le in Hlo. apply Z.leb_le in Hhi.
  change (2 ^ (32 - 1)) with 2147483648 in *.
  change (2 ^ 32) with 4294967296 in *.
  change (2 ^ 31) with 2147483648 in *.
  rewrite Z.mod_small; lia.
Qed.

Lemma to_int_range (z : Z) : C.in_int (C.to_int z) = true.
Proof.
  unfold C.in_int, C.INT_MIN, C.INT_MAX, C.to_int, C.wrap_signed.
  change (2 ^ (32 - 1)) with 2147483648.
  change (2 ^ 32) with 4294967296.
  change (2 ^ 31) with 2147483648.
  pose proof (Z.mod_pos_bound (z + 2147483648) 4294967296 eq_refl) as Hb.
  apply andb_true_intro. split; apply Z.leb_le; lia.
Qed.

Lemma in_int_in_long (z : Z) : C.in_int z = true -> C.in_long z = true.
Proof.
  unfold C.in_int, C.in_long, C.INT_MIN, C.INT_MAX, C.LONG_MIN, C.LONG_MAX.
  intros H. apply andb_prop in H. destruct H as [Hlo Hhi].
  apply Z.leb_le in Hlo. apply Z.leb_le in Hhi.
  change (2 ^ 31) with 2147483648 in *.
  change (2 ^ 63) with 9223372036854775808.
  apply andb_true_intro. split; apply Z.leb_le; lia.
Qed.

Lemma parse_i_in_int (z : Z) : C.in_int z = true -> parse_i z = Some z.
Proof. unfold parse_i. intros ->. reflexivity. Qed.

Lemma parse_l_in_long (z : Z) : C.in_long z = true -> parse_l z = Some z.
Proof. unfold parse_l. intros ->. reflexivity. Qed.

(** ** Binary64 rounding *)

Lemma fexp64_eq (e : Z) : fexp64 e = Z.max (e - 53) (-1074).
Proof. reflexivity. Qed.

Lemma pow2_pos (e : Z) : 0 <= e -> 0 < 2 ^ e.
Proof. intros. apply Z.pow_pos_nonneg; lia. Qed.

(** The number of binary digits of a mantissa. *)
Lemma digits2_pos_bound (m : positive) :
  2 ^ (Zpos (digits2_pos m) - 1) <= Zpos m < 2 ^ Zpos (digits2_pos m).
Proof.
  induction m as [m IH|m IH|]; cbn [digits2_pos].
  - rewrite Pos2Z.inj_succ. change (Zpos m~1) with (2 * Zpos m + 1).
    replace (Z.succ (Zpos (digits2_pos m)) - 1) with (Z.succ (Zpos (digits2_pos m) - 1)) by lia.
    rewrite !Z.pow_succ_r by lia.
    set (a := 2 ^ (Zpos (digits2_pos m) - 1)) in *.
    set (b := 2 ^ Zpos (digits2_pos m)) in *. clearbody a b. lia.
  - rewrite Pos2Z.inj_succ. change (Zpos m~0) with (2 * Zpos m).
    replace (Z.succ (Zpos (digits2_pos m)) - 1) with (Z.succ (Zpos (digits2_pos m) - 1)) by lia.
    rewrite !Z.pow_succ_r by lia.
    set (a := 2 ^ (Zpos (digits2_pos m) - 1)) in *.
    set (b := 2 ^ Zpos (digits2_pos m)) in *. clearbody a b. lia.
  - cbn. lia.
Qed.

(** *** Locations *)

Lemma represents_exact (N : Z) : represents N 1 (shr_record_of_loc N loc_Exact).
Proof.
  unfold represents. cbn. rewrite Z.div_1_r, Z.mod_1_r. cbn. auto.
Qed.

(** One shift to the right halves the scale. *)
Lemma shr_1_represents (N D : Z) (mrs : shr_record) :
  0 <= N -> 0 < D -> represents N D mrs -> represents N (2 * D) (shr_1 mrs).
Proof.
  intros HN HD (Hm & Hr & Hs).
  pose proof (Z.div_mod N D ltac:(lia)) as Hdm.
  pose proof (Z.mod_pos_bound N D HD) as Hrho.
  pose proof (Z.div_pos N D HN HD) as Hq.
  set (q := N / D) in *. set (rho := N mod D) in *.
  assert (Hdiv : forall b q', q = 2 * q' + b -> 0 <= b <= 1 ->
             N / (2 * D) = q' /\ N mod (2 * D) = rho + b * D).
  { intros b q' Hq' Hb.
    assert (E : N = (2 * D) * q' + (rho + b * D)) by nia.
    assert (Hbd : 0 <= rho + b * D < 2 * D) by nia.
    split.
    - symmetry. apply (Z.div_unique_pos N (2 * D) q' (rho + b * D)); assumption.
    - symmetry. apply (Z.mod_unique_pos N (2 * D) q' (rho + b * D)); assumption. }
  assert (Hors : orb (shr_r mrs) (shr_s mrs) = negb (rho =? 0)).
  { rewrite Hr, Hs. decide_bits. }
  destruct mrs as [m r s]. cbn [shr_m shr_r shr_s] in *.
  unfold shr_1. rewrite Hors. unfold represents. cbn [shr_m shr_r shr_s].
  destruct m as [|[p|p|]|p]; try lia.
  - destruct (Hdiv 0 0 ltac:(lia) ltac:(lia)) as [-> ->].
    repeat split; decide_bits.
  - destruct (Hdiv 1 (Zpos p) ltac:(lia) ltac:(lia)) as [-> ->].
    repeat split; decide_bits.
  - destruct (Hdiv 0 (Zpos p) ltac:(lia) ltac:(lia)) as [-> ->].
    repeat split; decide_bits.
  - destruct (Hdiv 1 0 ltac:(lia) ltac:(lia)) as [-> ->].
    repeat split; decide_bits.
Qed.

(** [p] shifts to the right divide the scale by [2^p]. *)
Lemma iter_pos_represents (N : Z) (p : positive) :
  0 <= N ->
  forall D mrs, 0 < D -> represents N D mrs ->
  represents N (D * 2 ^ Zpos p) (iter_pos shr_1 p mrs).
Proof.
  intros HN. induction p as [p IH|p IH|]; intros D mrs HD H; cbn [iter_pos].
  - replace (D * 2 ^ Zpos p~1) with (((2 * D) * 2 ^ Zpos p) * 2 ^ Zpos p).
    + apply IH; [|apply IH; [lia|apply shr_1_represents; assumption]].
      pose proof (Z.pow_pos_nonneg 2 (Zpos p)). nia.
    + replace (Zpos p~1) with (Zpos p + Zpos p + 1) by lia.
      rewrite !Z.pow_add_r, Z.pow_1_r by lia. ring.
  - replace (D * 2 ^ Zpos p~0) with ((D * 2 ^ Zpos p) * 2 ^ Zpos p).
    + apply IH; [|apply IH; assumption].
      pose proof (Z.pow_pos_nonneg 2 (Zpos p)). nia.
    + replace (Zpos p~0) with (Zpos p + Zpos p) by lia.
      rewrite Z.pow_add_r by lia. ring.
  - replace (D * 2 ^ 1) with (2 * D) by (rewrite Z.pow_1_r; ring).
    apply shr_1_represents; assumption.
Qed.

(** The mantissa chosen from a location is within one half of the
    located number. *)
Lemma round_nearest_even_represents (N D : Z) (mrs : shr_record) :
  0 <= N -> 0 < D -> represents N D mrs ->
  2 * Z.abs (round_nearest_even (shr_m mrs) (loc_of_shr_record mrs) * D - N) <= D.
Proof.
  intros HN HD (Hm & Hr & Hs).
  pose proof (Z.div_mod N D ltac:(lia)) as Hdm.
  pose proof (Z.mod_pos_bound N D HD) as Hrho.
  destruct mrs as [m r s]. cbn [shr_m shr_r shr_s] in *. subst m.
  set (q := N / D) in *. set (rho := N mod D) in *.
  destruct (Z.leb_spec D (2 * rho)), (Z.eqb_spec rho 0), (Z.eqb_spec (2 * rho) D);
    subst r s; cbn [negb andb loc_of_shr_record round_nearest_even]; try lia.
  - destruct (Z.even q); lia.
Qed.

Lemma Zdigits2_bound (M : Z) :
  0 < M -> 2 ^ (Zdigits2 M - 1) <= M < 2 ^ Zdigits2 M.
Proof.
  destruct M as [|m|m]; try lia. intros _. apply digits2_pos_bound.
Qed.

Lemma Zdigits2_pos (M : Z) : 0 < M -> 0 < Zdigits2 M.
Proof. destruct M; cbn; lia. Qed.

Lemma Zdigits2_gt (q : Z) : 0 <= q -> q < 2 ^ Zdigits2 q.
Proof.
  intros Hq. destruct (Z.eq_dec q 0) as [->|Hn]; [reflexivity|].
  apply Zdigits2_bound. lia.
Qed.

Lemma Zdigits2_nonneg (q : Z) : 0 <= Zdigits2 q.
Proof. destruct q; cbn; lia. Qed.

(** [shr_fexp] shifts to the exponent of the format; the record it
    returns locates the same number. *)
Lemma shr_fexp_represents (N D0 q e : Z) (l : location) :
  0 <= N -> 0 < D0 ->
  represents N D0 (shr_record_of_loc q l) ->
  let e1 := Z.max e (fexp64 (Zdigits2 q + e)) in
  exists mrs, shr_fexp prec emax q e l = (mrs, e1) /\
              represents N (D0 * 2 ^ (e1 - e)) mrs.
Proof.
  intros HN HD Hrep e1. unfold shr_fexp, shr. subst e1.
  destruct (fexp64 (Zdigits2 q + e) - e) as [|p|p] eqn:En.
  - exists (shr_record_of_loc q l). split.
    + f_equal. lia.
    + replace (Z.max e (fexp64 (Zdigits2 q + e)) - e) with 0 by lia.
      rewrite Z.pow_0_r, Z.mul_1_r. exact Hrep.
  - exists (iter_pos shr_1 p (shr_record_of_loc q l)). split.
    + f_equal. lia.
    + replace (Z.max e (fexp64 (Zdigits2 q + e)) - e) with (Zpos p) by lia.
      apply iter_pos_represents; assumption.
  - exists (shr_record_of_loc q l). split.
    + f_equal. lia.
    + replace (Z.max e (fexp64 (Zdigits2 q + e)) - e) with 0 by lia.
      rewrite Z.pow_0_r, Z.mul_1_r. exact Hrep.
Qed.

(** Rounding to nearest: [binary_round_aux] applied to a mantissa [q] and
    a location that stand for [N / D0] returns the double [R * 2^e1] with
    [R] within one half of [N / (D0 * 2^(e1 - e))]. *)
Lemma round_aux_located (s : bool) (N D0 q e : Z) (l : location) :
  0 <= N -> 0 < D0 ->
  represents N D0 (shr_record_of_loc q l) ->
  let e1 := Z.max e (fexp64 (Zdigits2 q + e)) in
  e1 + 1 <= emax - prec ->
  exists R,
    is_float (binary_round_aux prec emax s q e l) s R e1 /\
    2 * Z.abs (R * (D0 * 2 ^ (e1 - e)) - N) <= D0 * 2 ^ (e1 - e).
Proof.
  intros HN HD0 Hrep e1 Hov. unfold binary_round_aux.
  assert (Hq : q = N / D0).
  { destruct Hrep as [Hq _]. destruct l as [|[| |]]; exact Hq. }
  assert (Hq0 : 0 <= q) by (rewrite Hq; apply Z.div_pos; lia).
  assert (HNq : N < D0 * (q + 1)).
  { rewrite Hq. pose proof (Z.mul_succ_div_gt N D0 HD0). lia. }
  destruct (shr_fexp_represents N D0 q e l HN HD0 Hrep) as (mrs1 & -> & Hrep1).
  fold e1 in Hrep1 |- *.
  assert (Ee1 : e1 = Z.max e (Z.max (Zdigits2 q + e - 53) (-1074))) by reflexivity.
  clearbody e1.
  set (D := 2 ^ (e1 - e)) in *.
  assert (HD : 0 < D) by (apply pow2_pos; lia).
  assert (HDD : 0 < D0 * D) by nia.
  pose proof (round_nearest_even_represents N (D0 * D) mrs1 HN HDD Hrep1) as Hne.
  set (R := round_nearest_even (shr_m mrs1) (loc_of_shr_record mrs1)) in *.
  exists R. split; [|exact Hne].
  assert (HR0 : 0 <= R) by (clearbody D R; nia).
  (* the rounded mantissa has at most 53 bits, or is 2^53 *)
  assert (HR53 : R <= 2 ^ 53).
  { pose proof (Zdigits2_gt q Hq0) as Hd.
    pose proof (Zdigits2_nonneg q) as Hdn.
    assert (Hle : 2 ^ Zdigits2 q <= D * 2 ^ 53).
    { unfold D. rewrite <- Z.pow_add_r by lia.
      apply Z.pow_le_mono_r; lia. }
    change (2 ^ 53) with 9007199254740992 in *.
    set (Q := 2 ^ Zdigits2 q) in *.
    clearbody D R Q.
    assert (N < D0 * (D * 9007199254740992)) by nia.
    assert (2 * (R * (D0 * D)) <= 2 * N + D0 * D) by lia.
    assert (R * (D0 * D) < (9007199254740992 + 1) * (D0 * D)) by nia.
    nia. }
  assert (He1 : -1074 <= e1) by lia.
  destruct (shr_fexp_represents R 1 R e1 loc_Exact HR0 ltac:(lia)
              (represents_exact R)) as (mrs2 & -> & Hrep2).
  destruct Hrep2 as (Hm2 & _ & _). rewrite Hm2, Z.mul_1_l.
  destruct (Z.eq_dec R 0) as [->|HRn].
  { cbn. split; reflexivity. }
  assert (HRp : 0 < R) by lia.
  pose proof (Zdigits2_bound R HRp) as [Hdl Hdu].
  pose proof (Zdigits2_pos R HRp) as Hdp.
  assert (Hdg : Zdigits2 R <= 54).
  { destruct (Z.le_gt_cases (Zdigits2 R) 54) as [|Hgt]; [assumption|].
    assert (2 ^ 54 <= 2 ^ (Zdigits2 R - 1)) by (apply Z.pow_le_mono_r; lia).
    change (2 ^ 54) with 18014398509481984 in *.
    change (2 ^ 53) with 9007199254740992 in *. lia. }
  rewrite fexp64_eq.
  destruct (Z.eq_dec (Zdigits2 R) 54) as [E54|N54].
  - assert (HRe : R = 2 ^ 53).
    { rewrite E54 in Hdl. change (2 ^ (54 - 1)) with (2 ^ 53) in Hdl. lia. }
    replace (Z.max e1 (Z.max (Zdigits2 R + e1 - 53) (-1074))) with (e1 + 1) by lia.
    replace (e1 + 1 - e1) with 1 by lia. rewrite HRe.
    change (2 ^ 53 / 2 ^ 1) with (Zpos 4503599627370496).
    destruct (Z.leb_spec (e1 + 1) (emax - prec)); [|lia].
    cbn. repeat split; try lia.
    replace (e1 + 1 - e1) with 1 by lia. reflexivity.
  - replace (Z.max e1 (Z.max (Zdigits2 R + e1 - 53) (-1074))) with e1 by lia.
    rewrite Z.sub_diag, Z.pow_0_r, Z.div_1_r.
    destruct R as [|m|m]; try lia.
    destruct (Z.leb_spec e1 (emax - prec)); [|lia].
    cbn. repeat split; try lia.
    rewrite Z.sub_diag. cbn. lia.
Qed.

(** The case of an exact mantissa, as in a product. *)
Lemma round_aux_spec (s : bool) (M E : Z) :
  0 < M ->
  let e1 := Z.max E (fexp64 (Zdigits2 M + E)) in
  e1 + 1 <= emax - prec ->
  exists R,
    is_float (binary_round_aux prec emax s M E loc_Exact) s R e1 /\
    2 * Z.abs (R * 2 ^ (e1 - E) - M) <= 2 ^ (e1 - E).
Proof.
  intros HM e1 Hov.
  destruct (round_aux_located s M 1 M E loc_Exact ltac:(lia) ltac:(lia)
              (represents_exact M) Hov) as (R & Hfl & Hne).
  rewrite Z.mul_1_l in Hne. exists R. split; assumption.
Qed.

(** *** Exact results *)

Lemma iter_xO_spec (m d : positive) :
  Zpos (Pos.iter xO m d) = Zpos m * 2 ^ Zpos d /\
  Zpos (digits2_pos (Pos.iter xO m d)) = Zpos (digits2_pos m) + Zpos d.
Proof.
  induction d as [|d [IHv IHd]] using Pos.peano_ind.
  - cbn [Pos.iter digits2_pos]. split; [rewrite Z.pow_1_r; lia|lia].
  - rewrite Pos.iter_succ. cbn [digits2_pos].
    rewrite Pos2Z.inj_succ, Z.pow_succ_r by lia.
    change (Zpos (Pos.iter xO m d)~0) with (2 * Zpos (Pos.iter xO m d)).
    rewrite IHv. split; [ring|lia].
Qed.

Lemma shl_align_spec (m : positive) (e e' : Z) :
  e' <= e ->
  exists mz, shl_align m e e' = (mz, e') /\
             Zpos mz = Zpos m * 2 ^ (e - e') /\
             Zpos (digits2_pos mz) = Zpos (digits2_pos m) + (e - e').
Proof.
  intros Hle. unfold shl_align.
  destruct (e' - e) as [|d|d] eqn:Ed; try lia.
  - assert (e' = e) by lia. subst e'. rewrite Z.sub_diag. exists m.
    repeat split; lia.
  - destruct (iter_xO_spec m d) as [Hv Hd].
    replace (e - e') with (Zpos d) by lia. eexists. repeat split; assumption.
Qed.

(** A mantissa that fits the format is not rounded. *)
Lemma binary_round_aux_canonical (s : bool) (m : positive) (e : Z) :
  fexp64 (Zpos (digits2_pos m) + e) = e ->
  e <= emax - prec ->
  binary_round_aux prec emax s (Zpos m) e loc_Exact = S754_finite s m e.
Proof.
  intros Hc He. unfold binary_round_aux, shr_fexp. cbn [Zdigits2].
  rewrite Hc, Z.sub_diag. cbn [shr shr_record_of_loc shr_m loc_of_shr_record
    round_nearest_even Zdigits2].
  rewrite Hc, Z.sub_diag. cbn [shr shr_record_of_loc shr_m].
  destruct (Z.leb_spec e (emax - prec)); [reflexivity|lia].
Qed.

Lemma binary_round_exact (s : bool) (m : positive) (e : Z) :
  Zpos m < 2 ^ 53 ->
  -1074 <= e ->
  e <= emax - prec ->
  let e' := fexp64 (Zpos (digits2_pos m) + e) in
  exists m', binary_round prec emax s m e = S754_finite s m' e' /\
             e' <= e /\ -1074 <= e' /\
             Zpos m' = Zpos m * 2 ^ (e - e') /\ Zpos m' < 2 ^ 53.
Proof.
  intros Hm Hlo Hhi e'.
  pose proof (digits2_pos_bound m) as [Hdl Hdu].
  assert (Hd : Zpos (digits2_pos m) <= 53).
  { destruct (Z.le_gt_cases (Zpos (digits2_pos m)) 53) as [|Hgt]; [assumption|].
    assert (2 ^ 53 <= 2 ^ (Zpos (digits2_pos m) - 1)) by (apply Z.pow_le_mono_r; lia).
    lia. }
  assert (Ee' : e' = Z.max (Zpos (digits2_pos m) + e - 53) (-1074)) by reflexivity.
  assert (Hle : e' <= e) by lia.
  unfold binary_round. fold e'.
  destruct (shl_align_spec m e e' Hle) as (m' & -> & Hv & Hdg).
  exists m'. rewrite binary_round_aux_canonical.
  - repeat split; try lia.
    rewrite Hv.
    pose proof (digits2_pos_bound m') as [_ Hu]. rewrite Hdg in Hu.
    rewrite Hv in Hu.
    assert (2 ^ (Zpos (digits2_pos m) + (e - e')) <= 2 ^ 53)
      by (apply Z.pow_le_mono_r; lia).
    lia.
  - rewrite Hdg. rewrite fexp64_eq. lia.
  - lia.
Qed.

(** [(double)n] is exact for [0 < |n| < 2^53]. *)
Lemma of_Z_exact (n : Z) :
  0 < Z.abs n < 2 ^ 53 ->
  exists m e, of_Z n = S754_finite (n <? 0) m e /\
              -52 <= e <= 0 /\ Zpos m = Z.abs n * 2 ^ (- e).
Proof.
  intros Hn.
  assert (Hgen : forall s p, Zpos p < 2 ^ 53 ->
            exists m e, binary_round prec emax s p 0 = S754_finite s m e /\
                        -52 <= e <= 0 /\ Zpos m = Zpos p * 2 ^ (- e)).
  { intros s p Hp.
    destruct (binary_round_exact s p 0 Hp) as (m' & -> & H1 & H2 & H3 & H4);
      [lia|unfold emax, prec; lia|].
    rewrite fexp64_eq in *.
    pose proof (digits2_pos_bound p) as [Hdl Hdu].
    exists m'. eexists. split; [reflexivity|].
    set (dg := Zpos (digits2_pos p)) in *.
    assert (0 < dg) by (unfold dg; lia).
    assert (dg <= 53).
    { destruct (Z.le_gt_cases dg 53) as [|Hgt]; [assumption|].
      assert (2 ^ 53 <= 2 ^ (dg - 1)) by (apply Z.pow_le_mono_r; lia).
      lia. }
    clearbody dg.
    split; [lia|]. rewrite H3, Z.sub_0_l. reflexivity. }
  unfold of_Z, binary_normalize.
  destruct n as [|p|p].
  - change (Z.abs 0) with 0 in Hn. lia.
  - apply Hgen. exact (proj2 Hn).
  - apply Hgen. exact (proj2 Hn).
Qed.

(** *** The fractional part [value - (int)value] *)

Lemma bounded_facts (m : positive) (e : Z) :
  bounded prec emax m e = true ->
  -1074 <= e <= 971 /\ Zpos m < 2 ^ 53 /\
  fexp64 (Zpos (digits2_pos m) + e) = e.
Proof.
  unfold bounded, canonical_mantissa. intros H.
  apply andb_prop in H. destruct H as [Hc He].
  apply Z.eqb_eq in Hc. apply Z.leb_le in He.
  pose proof Hc as Hc'. rewrite fexp64_eq in Hc'.
  pose proof (digits2_pos_bound m) as [_ Hdu].
  assert (2 ^ Zpos (digits2_pos m) <= 2 ^ 53) by (apply Z.pow_le_mono_r; lia).
  unfold emax, prec in He. repeat split; (lia || exact Hc).
Qed.

Lemma int_frac_part (m : positive) (e : Z) :
  0 <= int_part m e /\
  (e < 0 -> Zpos m = int_part m e * 2 ^ (- e) + frac_part m e /\
            0 <= frac_part m e < 2 ^ (- e)) /\
  (0 <= e -> int_part m e = Zpos m * 2 ^ e /\ frac_part m e = 0).
Proof.
  unfold int_part, frac_part. repeat split.
  - apply Z.shiftl_nonneg. lia.
  - rewrite Z.shiftl_div_pow2 by lia.
    destruct (Z.ltb_spec e 0); [|lia].
    pose proof (Z.div_mod (Zpos m) (2 ^ (- e))
                  ltac:(pose proof (pow2_pos (- e)); lia)). lia.
  - destruct (Z.ltb_spec e 0); [|lia].
    apply Z.mod_pos_bound, pow2_pos. lia.
  - destruct (Z.ltb_spec e 0); [|lia].
    apply Z.mod_pos_bound, pow2_pos. lia.
  - apply Z.shiftl_mul_pow2. assumption.
  - destruct (Z.ltb_spec e 0); [lia|reflexivity].
Qed.

Lemma pow2_split (a b : Z) : 0 <= a -> 0 <= b -> 2 ^ (a + b) = 2 ^ a * 2 ^ b.
Proof. intros. apply Z.pow_add_r; assumption. Qed.

Lemma sub_trunc (s : bool) (md : positive) (ed : Z) (i : Z) :
  bounded prec emax md ed = true ->
  to_int (S754_finite s md ed) = Some i ->
  let rho := frac_part md ed in
  let f := sub (S754_finite s md ed) (of_Z i) in
  i = cond_Zopp s (int_part md ed) /\
  (rho = 0 -> f = S754_zero false) /\
  (0 < rho -> exists mf ef,
      f = S754_finite s mf ef /\ -1074 <= ef <= ed /\
      Zpos mf = rho * 2 ^ (ed - ef) /\ Zpos mf < 2 ^ 53).
Proof.
  intros Hb Hi rho f.
  destruct (bounded_facts md ed Hb) as ((Hlo & Hhi) & Hm53 & Hcan).
  unfold to_int, trunc in Hi. fold (int_part md ed) in Hi.
  destruct (C.in_int (cond_Zopp s (int_part md ed))) eqn:Hrange; [|discriminate].
  injection Hi as Hi. symmetry in Hi.
  destruct (int_frac_part md ed) as (HI0 & Hneg & Hpos).
  fold rho in Hneg, Hpos.
  split; [exact Hi|].
  set (I := int_part md ed) in *.
  assert (HI31 : I <= 2 ^ 31).
  { unfold C.in_int, C.INT_MIN, C.INT_MAX in Hrange.
    apply andb_prop in Hrange. destruct Hrange as [H1 H2].
    apply Z.leb_le in H1. apply Z.leb_le in H2.
    destruct s; cbn [cond_Zopp] in *; lia. }
  destruct (Z.eq_dec I 0) as [HI|HI].
  { (* the integral part is 0: nothing is subtracted *)
    assert (Hed : ed < 0).
    { destruct (Z.lt_ge_cases ed 0) as [|Hge]; [assumption|].
      destruct (Hpos Hge) as [HIv _].
      pose proof (pow2_pos ed Hge). nia. }
    destruct (Hneg Hed) as [Hdec Hrho].
    assert (Hi0 : i = 0) by (rewrite Hi, HI; destruct s; reflexivity).
    assert (Ef : f = S754_finite s md ed) by (unfold f; rewrite Hi0; reflexivity).
    split.
    - intros H0. rewrite HI in Hdec. lia.
    - intros _. exists md, ed. rewrite Z.sub_diag, Z.pow_0_r.
      repeat split; try lia. exact Ef. }
  assert (HIp : 0 < I) by lia.
  destruct (of_Z_exact i) as (mi & ei & Eof & Hei & Hmi).
  { rewrite Hi. change (2 ^ 53) with 9007199254740992.
    change (2 ^ 31) with 2147483648 in HI31.
    destruct s; cbn [cond_Zopp]; lia. }
  assert (Hsi : (i <? 0) = s).
  { rewrite Hi. destruct s; cbn [cond_Zopp].
    - apply Z.ltb_lt. lia.
    - apply Z.ltb_ge. lia. }
  assert (Habs : Z.abs i = I) by (rewrite Hi; destruct s; cbn [cond_Zopp]; lia).
  rewrite Hsi in Eof. rewrite Habs in Hmi.
  (* the difference of the aligned mantissas *)
  set (ez := Z.min ed ei).
  assert (Ef : f = binary_normalize prec emax
                     (cond_Zopp s (Zpos md * 2 ^ (ed - ez) - I * 2 ^ (- ez))) ez false).
  { unfold f, sub. rewrite Eof. unfold SFsub. fold ez.
    destruct (shl_align_spec md ed ez ltac:(lia)) as (a & -> & Ha & _).
    destruct (shl_align_spec mi ei ez ltac:(lia)) as (b & -> & Hb' & _).
    cbn [fst]. rewrite Ha, Hb', Hmi.
    replace (I * 2 ^ (- ei) * 2 ^ (ei - ez)) with (I * 2 ^ (- ez)).
    - f_equal. destruct s; cbn [cond_Zopp]; lia.
    - replace (- ez) with (- ei + (ei - ez)) by lia.
      rewrite pow2_split by lia. ring. }
  assert (EF : Zpos md * 2 ^ (ed - ez) - I * 2 ^ (- ez) = rho * 2 ^ (ed - ez)).
  { destruct (Z.lt_ge_cases ed 0) as [Hed|Hed].
    - destruct (Hneg Hed) as [Hdec _]. rewrite Hdec at 1.
      replace (- ez) with (- ed + (ed - ez)) by lia.
      rewrite pow2_split by lia. ring.
    - destruct (Hpos Hed) as [HIv Hr0]. rewrite Hr0, HIv.
      replace (ed - ez) with (ed + - ez) by lia.
      rewrite pow2_split by lia. ring. }
  rewrite EF in Ef.
  split.
  - intros H0. rewrite Ef, H0. destruct s; reflexivity.
  - intros Hrho.
    assert (Hed : ed < 0).
    { destruct (Z.lt_ge_cases ed 0) as [|Hge]; [assumption|].
      destruct (Hpos Hge) as [_ Hr0]. lia. }
    destruct (Hneg Hed) as [Hdec Hrb].
    assert (Hed53 : -53 < ed).
    { destruct (Z.lt_ge_cases (-53) ed) as [|Hge]; [assumption|].
      assert (2 ^ 53 <= 2 ^ (- ed)) by (apply Z.pow_le_mono_r; lia).
      nia. }
    pose proof (pow2_pos (ed - ez) ltac:(lia)) as Hp.
    assert (HF : 0 < rho * 2 ^ (ed - ez) < 2 ^ 53).
    { split; [nia|].
      assert (rho * 2 ^ (ed - ez) < 2 ^ (- ed) * 2 ^ (ed - ez)) by nia.
      rewrite <- pow2_split in H by lia.
      assert (2 ^ (- ed + (ed - ez)) <= 2 ^ 53) by (apply Z.pow_le_mono_r; lia).
      lia. }
    destruct (rho * 2 ^ (ed - ez)) as [|pf|pf] eqn:EpF; try lia.
    assert (Ef' : f = binary_round prec emax s pf ez)
      by (rewrite Ef; destruct s; reflexivity).
    destruct (binary_round_exact s pf ez (proj2 HF) ltac:(lia)
                ltac:(unfold emax, prec; lia)) as (m' & Er & H1 & H2 & H3 & H4).
    rewrite <- Ef' in Er.
    exists m'. eexists. split; [exact Er|].
    rewrite fexp64_eq in *.
    set (e' := Z.max (Zpos (digits2_pos pf) + ez - 53) (-1074)) in *.
    clearbody e'.
    repeat split; try lia.
    rewrite H3, <- EpF.
    replace (ed - e') with ((ed - ez) + (ez - e')) by lia.
    rewrite pow2_split by lia. ring.
Qed.

(** *** Truncation of a rounded result *)

Lemma trunc_is_float (r : double) (s : bool) (R e : Z) :
  is_float r s R e -> e <= 0 ->
  trunc r = Some (cond_Zopp s (R / 2 ^ (- e))).
Proof.
  destruct r as [s'|s'| |s' m e']; cbn [is_float trunc]; try contradiction.
  - intros [-> ->] He. rewrite Z.div_0_l.
    + destruct s; reflexivity.
    + pose proof (pow2_pos (- e)). lia.
  - intros (-> & Hle & <-) He. do 2 f_equal.
    destruct (Z.le_gt_cases e' 0) as [He'|He'].
    + rewrite Z.shiftl_div_pow2 by lia.
      replace (- e) with ((- e') + (e' - e)) by lia.
      rewrite pow2_split by lia.
      rewrite Z.div_mul_cancel_r; [reflexivity| |].
      * pose proof (pow2_pos (- e')). lia.
      * pose proof (pow2_pos (e' - e)). lia.
    + rewrite Z.shiftl_mul_pow2 by lia.
      replace (e' - e) with (e' + - e) by lia.
      rewrite pow2_split by lia.
      rewrite Z.mul_assoc, Z.div_mul; [reflexivity|].
      pose proof (pow2_pos (- e)). lia.
Qed.

(** [1e9 * f] for a double [f] of magnitude below 1, truncated: the
    result [n] is below [10^9], and it is on the same side of every
    integer [k] as the exact product. *)
Lemma mul_1e9_trunc (s : bool) (mf : positive) (ef : Z) :
  -1074 <= ef ->
  Zpos mf < 2 ^ 53 ->
  Zpos mf < 2 ^ (- ef) ->
  exists n,
    trunc (mul d_1e9 (S754_finite s mf ef)) = Some (cond_Zopp s n) /\
    0 <= n <= 999999999 /\
    (forall k, k * 2 ^ (- ef) <= 1000000000 * Zpos mf -> k <= n) /\
    (forall k, 1000000000 * Zpos mf <= k * 2 ^ (- ef) -> n <= k).
Proof.
  intros Hlo Hm53 Hlt1.
  assert (Hef : ef < 0).
  { destruct (Z.lt_ge_cases ef 0) as [|Hge]; [assumption|].
    destruct (Z.eq_dec ef 0) as [->|Hne].
    - change (2 ^ (- 0)) with 1 in Hlt1. lia.
    - rewrite Z.pow_neg_r in Hlt1 by lia. lia. }
  unfold mul, d_1e9, SFmul. cbn [xorb].
  set (M := Zpos (8388608000000000 * mf)).
  set (E := -23 + ef).
  assert (EM : M = m_1e9 * Zpos mf) by reflexivity.
  pose proof (pow2_pos (- ef) ltac:(lia)) as Hpf.
  assert (HM : 0 < M) by (unfold M; lia).
  pose proof (Zdigits2_bound M HM) as [Hdl Hdu].
  pose proof (Zdigits2_pos M HM) as Hdp.
  set (dM := Zdigits2 M) in *.
  assert (HdM : dM <= 53 - ef).
  { destruct (Z.le_gt_cases dM (53 - ef)) as [|Hgt]; [assumption|].
    assert (2 ^ (53 - ef) <= 2 ^ (dM - 1)) by (apply Z.pow_le_mono_r; lia).
    replace (53 - ef) with (53 + - ef) in H by lia.
    rewrite pow2_split in H by lia.
    unfold m_1e9 in EM. change (2 ^ 53) with 9007199254740992 in *.
    clearbody M dM. nia. }
  destruct (round_aux_spec s M E HM) as (R & Hfl & Hne).
  { rewrite fexp64_eq. fold dM. unfold emax, prec, E. lia. }
  rewrite fexp64_eq in Hfl, Hne. fold dM in Hfl, Hne.
  set (e1 := Z.max E (Z.max (dM + E - 53) (-1074))) in *.
  assert (He1 : e1 <= -23) by (unfold e1, E; lia).
  assert (HE1 : E <= e1) by (unfold e1; lia).
  set (D := 2 ^ (e1 - E)) in *.
  assert (HD : 0 < D) by (apply pow2_pos; lia).
  assert (HDm : D < 2 * m_1e9).
  { destruct (Z.eq_dec e1 E) as [Eq|Ne].
    - unfold D. rewrite Eq, Z.sub_diag. cbn. unfold m_1e9. lia.
    - destruct (Z.eq_dec e1 (-1074)) as [Eq|Ne'].
      + assert (D <= 2 ^ 23).
        { unfold D. apply Z.pow_le_mono_r; [lia|]. unfold E. lia. }
        change (2 ^ 23) with 8388608 in H. unfold m_1e9. lia.
      + assert (Ee : e1 - E = dM - 53) by (unfold e1 in *; lia).
        assert (D * 2 ^ 52 = 2 ^ (dM - 1)).
        { unfold D. rewrite Ee, <- pow2_split by lia. f_equal. lia. }
        change (2 ^ 52) with 4503599627370496 in *.
        change (2 ^ 53) with 9007199254740992 in *.
        clearbody M D dM. nia. }
  (* 2^(-E) = 2^(-e1) * D and 2^(-E) = 2^23 * 2^(-ef) *)
  pose proof (pow2_pos (- e1) ltac:(lia)) as Hpe1.
  assert (HsE : 2 ^ (- E) = 2 ^ (- e1) * D).
  { unfold D. rewrite <- pow2_split by lia. f_equal. lia. }
  assert (HsE' : 2 ^ (- E) = 2 ^ 23 * 2 ^ (- ef)).
  { rewrite <- pow2_split by lia. f_equal. unfold E. lia. }
  assert (HR0 : 0 <= R) by (clearbody M D; nia).
  exists (R / 2 ^ (- e1)).
  split; [apply trunc_is_float; [exact Hfl|lia]|].
  set (P := 2 ^ (- e1)) in *. set (F := 2 ^ (- ef)) in *.
  change (2 ^ 23) with 8388608 in *. unfold m_1e9 in *.
  clearbody M D P F e1 dM.
  repeat split.
  - apply Z.div_pos; lia.
  - assert (R / P < 1000000000); [|lia].
    apply Z.div_lt_upper_bound; [lia|]. nia.
  - intros k Hk. apply Z.div_le_lower_bound; [lia|]. nia.
  - intros k Hk.
    assert (R <= P * k) by nia.
    apply Z.div_le_upper_bound; lia.
Qed.

(** *** Lines 108-109 on a finite double *)

Lemma in_long_small (z : Z) : Z.abs z <= 2 ^ 31 -> C.in_long z = true.
Proof.
  intros H. unfold C.in_long, C.LONG_MIN, C.LONG_MAX.
  change (2 ^ 31) with 2147483648 in H.
  change (2 ^ 63) with 9223372036854775808.
  apply andb_true_intro. split; apply Z.leb_le; lia.
Qed.

Lemma timespec_of_double_zero (s : bool) :
  timespec_of_double (S754_zero s) = Some {| tv_sec := 0; tv_nsec := 0 |}.
Proof. destruct s; reflexivity. Qed.

Lemma timespec_of_double_finite (s : bool) (md : positive) (ed : Z) (i : Z) :
  bounded prec emax md ed = true ->
  to_int (S754_finite s md ed) = Some i ->
  exists n,
    timespec_of_double (S754_finite s md ed) =
      Some {| tv_sec := cond_Zopp s (int_part md ed);
              tv_nsec := cond_Zopp s n |} /\
    0 <= n <= 999999999 /\
    (frac_part md ed = 0 -> n = 0) /\
    (ed < 0 ->
     (forall k, k * 2 ^ (- ed) <= 1000000000 * frac_part md ed -> k <= n) /\
     (forall k, 1000000000 * frac_part md ed <= k * 2 ^ (- ed) -> n <= k)).
Proof.
  intros Hb Hi.
  destruct (sub_trunc s md ed i Hb Hi) as (Ei & Hz & Hnz).
  assert (Hlong : to_long (S754_finite s md ed) = Some (cond_Zopp s (int_part md ed))).
  { unfold to_int in Hi. unfold to_long. cbn [trunc] in *.
    fold (int_part md ed) in Hi |- *.
    destruct (C.in_int (cond_Zopp s (int_part md ed))) eqn:Hr; [|discriminate].
    rewrite (in_int_in_long _ Hr). reflexivity. }
  unfold timespec_of_double. rewrite Hlong, Hi.
  destruct (int_frac_part md ed) as (HI0 & Hneg & Hpos).
  destruct (Z.eq_dec (frac_part md ed) 0) as [Hr0|Hrn].
  - rewrite (Hz Hr0). exists 0.
    replace (cond_Zopp s 0) with 0 by (destruct s; reflexivity).
    split; [reflexivity|]. split; [lia|]. split; [reflexivity|].
    intros Hed. rewrite Hr0.
    pose proof (pow2_pos (- ed) ltac:(lia)).
    split; intros k Hk; nia.
  - assert (Hed : ed < 0).
    { destruct (Z.lt_ge_cases ed 0) as [|Hge]; [assumption|].
      destruct (Hpos Hge) as [_ Hr0]. contradiction. }
    destruct (Hneg Hed) as [Hdec Hrb].
    destruct (Hnz ltac:(lia)) as (mf & ef & Ef & Hef & Hmf & Hm53).
    rewrite Ef.
    pose proof (pow2_pos (ed - ef) ltac:(lia)) as Hpd.
    pose proof (pow2_pos (- ed) ltac:(lia)) as Hpe.
    assert (Hsp : 2 ^ (- ef) = 2 ^ (- ed) * 2 ^ (ed - ef)).
    { rewrite <- pow2_split by lia. f_equal. lia. }
    destruct (mul_1e9_trunc s mf ef) as (n & Htr & Hn & Hlow & Hup); try lia.
    { rewrite Hsp, Hmf. nia. }
    exists n. unfold to_long. rewrite Htr.
    rewrite in_long_small.
    + split; [reflexivity|]. split; [exact Hn|]. split; [intros; contradiction|].
      intros _. split; intros k Hk.
      * apply Hlow. rewrite Hsp, Hmf. nia.
      * apply Hup. rewrite Hsp, Hmf. nia.
    + change (2 ^ 31) with 2147483648. destruct s; cbn [cond_Zopp]; lia.
Qed.

(** *** Doubles as rational numbers *)

Lemma Qpow2_nonneg (e : Z) : 0 <= e -> (2 ^ e == inject_Z (2 ^ e))%Q.
Proof. intros He. rewrite Zpower_Qpower by assumption. reflexivity. Qed.

Lemma Qpow2_neg (e : Z) : e < 0 -> (2 ^ e == / inject_Z (2 ^ (- e)))%Q.
Proof.
  intros He. replace e with (- - e) at 1 by lia.
  rewrite Qpower_opp, Zpower_Qpower by lia. reflexivity.
Qed.

Lemma dyadic_nonneg (m e : Z) :
  0 <= e -> (inject_Z m * 2 ^ e == inject_Z (m * 2 ^ e))%Q.
Proof.
  intros He. rewrite (Qpow2_nonneg e He), inject_Z_mult. reflexivity.
Qed.

Lemma dyadic_neg (m e : Z) :
  e < 0 -> (inject_Z m * 2 ^ e == inject_Z m / inject_Z (2 ^ (- e)))%Q.
Proof. intros He. rewrite (Qpow2_neg e He). reflexivity. Qed.

Lemma inject_pow2_pos (e : Z) : 0 <= e -> (0 < inject_Z (2 ^ e))%Q.
Proof.
  intros He. change 0%Q with (inject_Z 0). rewrite <- Zlt_Qlt.
  apply pow2_pos, He.
Qed.

Lemma Qfloor_dyadic (m : positive) (e : Z) :
  Qfloor (inject_Z (Zpos m) * 2 ^ e) = int_part m e.
Proof.
  unfold int_part. destruct (Z.lt_ge_cases e 0) as [He|He].
  - rewrite (Qfloor_comp _ _ (dyadic_neg _ _ He)), <- Zdiv_Qdiv.
    symmetry. apply Z.shiftl_div_pow2. lia.
  - rewrite (Qfloor_comp _ _ (dyadic_nonneg _ _ He)), Qfloor_Z.
    symmetry. apply Z.shiftl_mul_pow2. lia.
Qed.

(** The fractional part of a non-negative double, as a rational. *)
Lemma frac_part_Q (m : positive) (e : Z) :
  (inject_Z (Zpos m) * 2 ^ e - inject_Z (int_part m e) ==
   inject_Z (frac_part m e) * 2 ^ e)%Q.
Proof.
  destruct (int_frac_part m e) as (_ & Hneg & Hpos).
  destruct (Z.lt_ge_cases e 0) as [He|He].
  - destruct (Hneg He) as [Hdec _].
    rewrite Hdec at 1. rewrite inject_Z_plus, inject_Z_mult.
    rewrite (Qpow2_neg e He).
    pose proof (inject_pow2_pos (- e) ltac:(lia)) as Hp.
    field. intros H0. rewrite H0 in Hp. apply (Qlt_irrefl 0), Hp.
  - destruct (Hpos He) as [-> ->].
    rewrite (dyadic_nonneg _ _ He). ring.
Qed.

Lemma Qpow2_pos (e : Z) : (0 < 2 ^ e)%Q.
Proof. apply Qpower_0_lt. reflexivity. Qed.

Lemma to_Q_negative (m : positive) (e : Z) :
  (to_Q (S754_finite true m e) < 0)%Q.
Proof.
  cbn [to_Q cond_Zopp].
  pose proof (Qpow2_pos e) as Hp.
  assert (Hm : (inject_Z (- Zpos m) < 0)%Q).
  { change 0%Q with (inject_Z 0). rewrite <- Zlt_Qlt. lia. }
  set (a := inject_Z (- Zpos m)) in *. set (b := (2 ^ e)%Q) in *.
  clearbody a b. nra.
Qed.

(** Lines 108-109 on a non-negative double whose integral part fits in
    an [int]. *)
Lemma timespec_of_double_nonneg (d : double) (i : Z) :
  valid d = true ->
  (0 <= to_Q d)%Q ->
  to_int d = Some i ->
  exists ts,
    timespec_of_double d = Some ts /\
    tv_sec ts = Qfloor (to_Q d) /\
    0 <= tv_nsec ts <= 999999999 /\
    let k := Qfloor (1000000000 * (to_Q d - inject_Z (Qfloor (to_Q d)))) in
    k <= tv_nsec ts <= k + 1.
Proof.
  intros Hv Hpos Hi.
  destruct d as [s|s| |s md ed]; try discriminate Hi.
  - rewrite timespec_of_double_zero. eexists. split; [reflexivity|].
    cbn. repeat split; lia.
  - destruct s.
    { pose proof (to_Q_negative md ed) as Hn.
      exfalso. apply (Qlt_irrefl 0). eapply Qle_lt_trans; eassumption. }
    destruct (timespec_of_double_finite false md ed i Hv Hi)
      as (n & -> & Hn & Hz & Hk).
    eexists. split; [reflexivity|]. cbn [tv_sec tv_nsec cond_Zopp to_Q].
    rewrite Qfloor_dyadic.
    split; [reflexivity|]. split; [exact Hn|].
    assert (Ex : (1000000000 * (inject_Z (Zpos md) * 2 ^ ed - inject_Z (int_part md ed))
                  == inject_Z (1000000000 * frac_part md ed) * 2 ^ ed)%Q).
    { rewrite frac_part_Q, inject_Z_mult. ring. }
    cbv zeta. rewrite (Qfloor_comp _ _ Ex).
    destruct (int_frac_part md ed) as (_ & Hneg & Hpos').
    destruct (Z.lt_ge_cases ed 0) as [Hed|Hed].
    + rewrite (Qfloor_comp _ _ (dyadic_neg _ _ Hed)), <- Zdiv_Qdiv.
      destruct (Hk Hed) as [Hlow Hup].
      pose proof (pow2_pos (- ed) ltac:(lia)) as Hp.
      set (P := 2 ^ (- ed)) in *. set (X := 1000000000 * frac_part md ed) in *.
      split.
      * apply Hlow. rewrite Z.mul_comm. apply Z.mul_div_le. exact Hp.
      * apply Hup.
        pose proof (Z.mul_succ_div_gt X P Hp). lia.
    + destruct (Hpos' Hed) as [_ Hr0]. rewrite Hr0, (Hz Hr0).
      rewrite Z.mul_0_r.
      assert (E0 : (inject_Z 0 * 2 ^ ed == 0)%Q) by ring.
      rewrite (Qfloor_comp _ _ E0). cbn. lia.
Qed.

(** *** Division *)

(** The location computed from a remainder locates the quotient. *)
Lemma new_location_represents (N D : Z) :
  0 < D ->
  represents N D (shr_record_of_loc (N / D) (new_location D (N mod D))).
Proof.
  intros HD. pose proof (Z.mod_pos_bound N D HD) as Hr.
  set (rho := N mod D) in *.
  assert (Hgoal : forall l,
    (l = loc_Exact -> rho = 0) ->
    (l = loc_Inexact Lt -> 0 < 2 * rho < D) ->
    (l = loc_Inexact Eq -> 2 * rho = D) ->
    (l = loc_Inexact Gt -> D < 2 * rho) ->
    represents N D (shr_record_of_loc (N / D) l)).
  { intros l H1 H2 H3 H4. unfold represents. fold rho.
    destruct l as [|[| |]]; cbn [shr_record_of_loc shr_m shr_r shr_s];
      [specialize (H1 eq_refl)|specialize (H3 eq_refl)
      |specialize (H2 eq_refl)|specialize (H4 eq_refl)];
      repeat split; decide_bits. }
  unfold new_location. destruct (Z.even D) eqn:Hev.
  - unfold new_location_even. destruct (Z.eqb_spec rho 0) as [E0|N0].
    + apply Hgoal; intros H; try discriminate H; assumption.
    + destruct (Z.compare_spec (2 * rho) D);
        apply Hgoal; intros H'; try discriminate H'; lia.
  - assert (Hodd : Z.odd D = true) by (rewrite <- Z.negb_even, Hev; reflexivity).
    apply Z.odd_spec in Hodd. destruct Hodd as [h Hh].
    unfold new_location_odd. destruct (Z.eqb_spec rho 0) as [E0|N0].
    + apply Hgoal; intros H; try discriminate H; assumption.
    + destruct (Z.compare_spec (2 * rho + 1) D);
        apply Hgoal; intros H'; try discriminate H'; lia.
Qed.

(** The core of the division returns the floor of the quotient, scaled,
    and the location of the quotient. *)
Lemma div_core_represents (m1 m2 : positive) (e1 e2 : Z) :
  exists q e' l,
    SFdiv_core_binary prec emax (Zpos m1) e1 (Zpos m2) e2 = (q, e', l) /\
    e' = Z.min (fexp64 (Zpos (digits2_pos m1) + e1 - (Zpos (digits2_pos m2) + e2)))
               (e1 - e2) /\
    represents (Zpos m1 * 2 ^ (e1 - e2 - e')) (Zpos m2) (shr_record_of_loc q l).
Proof.
  unfold SFdiv_core_binary. cbn [Zdigits2].
  set (e' := Z.min (fexp64 (Zpos (digits2_pos m1) + e1 - (Zpos (digits2_pos m2) + e2)))
                   (e1 - e2)).
  assert (Hs : 0 <= e1 - e2 - e') by (unfold e'; lia).
  assert (Em : match e1 - e2 - e' with
               | 0 => Zpos m1
               | Zpos _ => Z.shiftl (Zpos m1) (e1 - e2 - e')
               | Zneg _ => 0
               end = Zpos m1 * 2 ^ (e1 - e2 - e')).
  { generalize Hs. generalize (e1 - e2 - e'). intros sh Hsh.
    destruct sh as [|p|p]; try lia.
    apply Z.shiftl_mul_pow2. lia. }
  rewrite Em.
  set (N := Zpos m1 * 2 ^ (e1 - e2 - e')).
  pose proof (new_location_represents N (Zpos m2) ltac:(lia)) as Hrep.
  unfold Z.div, Z.modulo in Hrep.
  destruct (Z.div_eucl N (Zpos m2)) as [q r].
  exists q, e', (new_location (Zpos m2) r).
  repeat split; assumption || apply Hrep.
Qed.

(** [(double)n / 1e9] for a count of nanoseconds [n]: the double
    [R * 2^e1] nearest to [n / 10^9], with [e1 <= -53]. *)
Lemma div_1e9_spec (n : Z) :
  0 < n <= 999999999 ->
  exists R e1,
    is_float (div (of_Z n) d_1e9) false R e1 /\
    -1074 <= e1 <= -53 /\
    2 * Z.abs (R * 1000000000 - n * 2 ^ (- e1)) <= 1000000000.
Proof.
  intros Hn.
  destruct (of_Z_exact n) as (mn & en & -> & Hen & Hmn).
  { change (2 ^ 53) with 9007199254740992. lia. }
  replace (n <? 0) with false by (symmetry; apply Z.ltb_ge; lia).
  replace (Z.abs n) with n in Hmn by lia.
  unfold div, d_1e9, SFdiv. cbn [xorb].
  destruct (div_core_represents mn 8388608000000000 en (-23))
    as (q & e' & l & -> & Ee' & Hrep).
  change (Zpos (digits2_pos 8388608000000000)) with 53 in Ee'.
  rewrite fexp64_eq in Ee'.
  pose proof (digits2_pos_bound mn) as [Hdl _].
  set (d1 := Zpos (digits2_pos mn)) in *.
  assert (Hd1 : d1 + en <= 30).
  { destruct (Z.le_gt_cases (d1 + en) 30) as [|Hgt]; [assumption|].
    assert (2 ^ (30 - en) <= 2 ^ (d1 - 1)) by (apply Z.pow_le_mono_r; lia).
    replace (30 - en) with (30 + - en) in H by lia.
    rewrite pow2_split in H by lia.
    change (2 ^ 30) with 1073741824 in H.
    pose proof (pow2_pos (- en) ltac:(lia)).
    clearbody d1. nia. }
  assert (He'lo : -1074 <= e') by lia.
  assert (He'hi : e' <= -53) by lia.
  assert (Hsh : 0 <= en - -23 - e') by lia.
  set (N := Zpos mn * 2 ^ (en - -23 - e')) in *.
  assert (EN : N = n * (2 ^ 23 * 2 ^ (- e'))).
  { unfold N. rewrite Hmn, <- Z.mul_assoc. f_equal.
    rewrite <- !pow2_split by lia. f_equal. lia. }
  pose proof (pow2_pos (- e') ltac:(lia)) as Hpe'.
  assert (HN0 : 0 <= N) by (rewrite EN; nia).
  assert (Hq : q = N / 8388608000000000).
  { destruct Hrep as [Hq _]. destruct l as [|[| |]]; exact Hq. }
  assert (Hq0 : 0 <= q) by (rewrite Hq; apply Z.div_pos; lia).
  assert (Hqlt : q < 2 ^ (- e')).
  { rewrite Hq. apply Z.div_lt_upper_bound; [lia|].
    rewrite EN. change (2 ^ 23) with 8388608. nia. }
  assert (Hdq : Zdigits2 q + e' <= 0).
  { destruct (Z.eq_dec q 0) as [->|Hqn]; [cbn; lia|].
    pose proof (Zdigits2_bound q ltac:(lia)) as [Hql _].
    destruct (Z.le_gt_cases (Zdigits2 q + e') 0) as [|Hgt]; [assumption|].
    assert (2 ^ (- e') <= 2 ^ (Zdigits2 q - 1)) by (apply Z.pow_le_mono_r; lia).
    lia. }
  destruct (round_aux_located false N 8388608000000000 q e' l HN0 ltac:(lia) Hrep)
    as (R & Hfl & Hne).
  { rewrite fexp64_eq. unfold emax, prec. lia. }
  rewrite fexp64_eq in Hfl, Hne.
  set (e1 := Z.max e' (Z.max (Zdigits2 q + e' - 53) (-1074))) in *.
  assert (He1 : e' <= e1 <= -53) by (unfold e1; lia).
  exists R, e1. split; [exact Hfl|]. split; [lia|].
  pose proof (pow2_pos (e1 - e') ltac:(lia)) as HpD.
  pose proof (pow2_pos (- e1) ltac:(lia)) as HpP.
  assert (Hsp : 2 ^ (- e') = 2 ^ (- e1) * 2 ^ (e1 - e')).
  { rewrite <- pow2_split by lia. f_equal. lia. }
  rewrite EN, Hsp in Hne. change (2 ^ 23) with 8388608 in Hne.
  set (D := 2 ^ (e1 - e')) in *. set (P := 2 ^ (- e1)) in *.
  clearbody D P N e1.
  assert (HG : 0 < 8388608 * D) by lia.
  set (G := 8388608 * D) in *.
  assert (EA : R * (8388608000000000 * D) - n * (8388608 * (P * D))
               = (R * 1000000000 - n * P) * G) by (unfold G; ring).
  rewrite EA in Hne.
  replace (8388608000000000 * D) with (1000000000 * G) in Hne by (unfold G; ring).
  rewrite Z.abs_mul, (Z.abs_eq G) in Hne by lia.
  clearbody G. nia.
Qed.

(** *** Rounding of a sum *)

Lemma binary_round_spec (s : bool) (p : positive) (ez : Z) :
  let e1 := fexp64 (Zpos (digits2_pos p) + ez) in
  e1 + 1 <= emax - prec ->
  ez <= emax - prec ->
  exists R,
    is_float (binary_round prec emax s p ez) s R e1 /\
    (e1 <= ez -> R = Zpos p * 2 ^ (ez - e1)) /\
    (ez <= e1 -> 2 * Z.abs (R * 2 ^ (e1 - ez) - Zpos p) <= 2 ^ (e1 - ez)).
Proof.
  intros e1 Hov Hez. unfold binary_round. fold e1.
  destruct (Z.le_gt_cases e1 ez) as [Hle|Hgt].
  - destruct (shl_align_spec p ez e1 Hle) as (mz & -> & Hv & Hdg).
    rewrite binary_round_aux_canonical.
    + exists (Zpos mz). cbn [is_float]. rewrite Z.sub_diag, Z.pow_0_r.
      repeat split; try lia.
      intros Hge. rewrite Hv.
      replace (e1 - ez) with 0 by lia. replace (ez - e1) with 0 by lia.
      rewrite Z.pow_0_r. lia.
    + rewrite Hdg. replace (Zpos (digits2_pos p) + (ez - e1) + e1)
        with (Zpos (digits2_pos p) + ez) by lia. reflexivity.
    + lia.
  - assert (Esh : shl_align p ez e1 = (p, ez)).
    { unfold shl_align. destruct (e1 - ez) eqn:E; try reflexivity; lia. }
    rewrite Esh.
    destruct (round_aux_spec s (Zpos p) ez ltac:(lia)) as (R & Hfl & Hne).
    { cbn [Zdigits2]. fold e1. lia. }
    cbn [Zdigits2] in Hfl, Hne. fold e1 in Hfl, Hne.
    replace (Z.max ez e1) with e1 in Hfl, Hne by lia.
    exists R. split; [exact Hfl|]. split; [intros; lia|intros _; exact Hne].
Qed.

(** Among the doubles, the rounded sum is nearest to the exact sum. *)
Lemma nearest_canonical (p md : positive) (ez ed R c : Z) :
  let e1 := fexp64 (Zpos (digits2_pos p) + ez) in
  ez <= e1 ->
  2 * Z.abs (R * 2 ^ (e1 - ez) - Zpos p) <= 2 ^ (e1 - ez) ->
  bounded prec emax md ed = true ->
  c <= ez -> c <= ed ->
  Z.abs (R * 2 ^ (e1 - c) - Zpos p * 2 ^ (ez - c))
    <= Z.abs (Zpos md * 2 ^ (ed - c) - Zpos p * 2 ^ (ez - c)).
Proof.
  intros e1 Hle Hne Hb Hc1 Hc2.
  destruct (bounded_facts md ed Hb) as ((Hlo & Hhi) & Hm53 & _).
  assert (Ee1 : e1 = Z.max (Zpos (digits2_pos p) + ez - 53) (-1074)) by reflexivity.
  pose proof (digits2_pos_bound p) as [Hpl _].
  set (dp := Zpos (digits2_pos p)) in *.
  pose proof (pow2_pos (e1 - ez) ltac:(lia)) as HD.
  pose proof (pow2_pos (ez - c) ltac:(lia)) as HG.
  assert (E1c : 2 ^ (e1 - c) = 2 ^ (e1 - ez) * 2 ^ (ez - c)).
  { rewrite <- pow2_split by lia. f_equal. lia. }
  rewrite E1c.
  set (D := 2 ^ (e1 - ez)) in *. set (G := 2 ^ (ez - c)) in *.
  destruct (Z.le_gt_cases e1 ed) as [Hed|Hed].
  - (* the other double is on the grid of the result *)
    assert (Edc : 2 ^ (ed - c) = 2 ^ (ed - e1) * (D * G)).
    { unfold D, G. rewrite <- !pow2_split by lia. f_equal. lia. }
    rewrite Edc.
    pose proof (pow2_pos (ed - e1) ltac:(lia)) as HY.
    set (Y := Zpos md * 2 ^ (ed - e1)).
    replace (Zpos md * (2 ^ (ed - e1) * (D * G))) with (Y * D * G) by (unfold Y; ring).
    replace (R * (D * G) - Zpos p * G) with ((R * D - Zpos p) * G) by ring.
    replace (Y * D * G - Zpos p * G) with ((Y * D - Zpos p) * G) by ring.
    rewrite !Z.abs_mul, (Z.abs_eq G) by lia.
    apply Z.mul_le_mono_nonneg_r; [lia|].
    clearbody D G Y dp e1. 
    destruct (Z.eq_dec Y R) as [->|Hne']; [lia|].
    assert (D <= Z.abs ((Y - R) * D)) by (rewrite Z.abs_mul, (Z.abs_eq D) by lia; nia).
    lia.
  - (* the other double is below the binade of the sum *)
    assert (Ee : e1 = dp + ez - 53) by lia.
    assert (HpD : D * 2 ^ 52 <= Zpos p).
    { unfold D. rewrite <- pow2_split by lia.
      replace (e1 - ez + 52) with (dp - 1) by lia. exact Hpl. }
    assert (Hdlt : Zpos md * 2 ^ (ed - c) < 2 ^ 52 * (D * G)).
    { pose proof (pow2_pos (ed - c) ltac:(lia)) as Hpc.
      assert (2 ^ 53 * 2 ^ (ed - c) <= 2 ^ 52 * (D * G)).
      { unfold D, G. rewrite <- !pow2_split by lia.
        apply Z.pow_le_mono_r; lia. }
      nia. }
    replace (R * (D * G) - Zpos p * G) with ((R * D - Zpos p) * G) by ring.
    rewrite Z.abs_mul, (Z.abs_eq G) by lia.
    change (2 ^ 52) with 4503599627370496 in *.
    set (X := Zpos md * 2 ^ (ed - c)) in *.
    clearbody D G X dp e1.
    assert (HR : Z.abs (R * D - Zpos p) <= Zpos p - 4503599627370496 * D).
    { destruct (Z.eq_dec R 4503599627370496) as [->|Hne']; [lia|].
      assert (D <= Z.abs ((4503599627370496 - R) * D))
        by (rewrite Z.abs_mul, (Z.abs_eq D) by lia; nia).
      lia. }
    nia.
Qed.

Lemma dyadic_rescale (a e c : Z) :
  c <= e -> (inject_Z a * 2 ^ e == inject_Z (a * 2 ^ (e - c)) * 2 ^ c)%Q.
Proof.
  intros Hc. rewrite inject_Z_mult, <- (Qpow2_nonneg (e - c)) by lia.
  rewrite <- Qmult_assoc, <- Qpower_plus by discriminate.
  replace (e - c + c) with e by lia. reflexivity.
Qed.

Lemma to_Q_is_float (r : double) (R e : Z) :
  is_float r false R e -> (to_Q r == inject_Z R * 2 ^ e)%Q.
Proof.
  destruct r as [s'|s'| |s' m e']; cbn [is_float to_Q]; try contradiction.
  - intros [_ ->]. ring.
  - intros (-> & Hle & <-). cbn [cond_Zopp]. apply dyadic_rescale, Hle.
Qed.

Lemma is_float_finite (r : double) (s : bool) (R e : Z) :
  is_float r s R e -> is_finite r = true.
Proof. destruct r; cbn; trivial; contradiction. Qed.

Lemma Qabs_dyadic (k c : Z) :
  (Qabs (inject_Z k * 2 ^ c) == inject_Z (Z.abs k) * 2 ^ c)%Q.
Proof.
  rewrite Qabs_Qmult, (Qabs_pos (2 ^ c)) by (apply Qlt_le_weak, Qpow2_pos).
  reflexivity.
Qed.

(** The sum of two positive doubles is a finite double, and no double is
    nearer to the exact sum. *)
Lemma add_nearest (m1 m2 md : positive) (e1 e2 ed : Z) :
  let ez := Z.min e1 e2 in
  ez <= 62 ->
  Zpos m1 * 2 ^ (e1 - ez) + Zpos m2 * 2 ^ (e2 - ez) < 2 ^ (62 - ez) ->
  bounded prec emax md ed = true ->
  let x := (to_Q (S754_finite false m1 e1) + to_Q (S754_finite false m2 e2))%Q in
  let r := add (S754_finite false m1 e1) (S754_finite false m2 e2) in
  is_finite r = true /\
  (Qabs (to_Q r - x) <= Qabs (to_Q (S754_finite false md ed) - x))%Q.
Proof.
  intros ez Hez Hz Hb x r.
  unfold r, add, SFadd. fold ez.
  destruct (shl_align_spec m1 e1 ez ltac:(lia)) as (a & -> & Ha & _).
  destruct (shl_align_spec m2 e2 ez ltac:(lia)) as (b & -> & Hb' & _).
  cbn [fst cond_Zopp]. rewrite <- Ha, <- Hb' in Hz.
  change (Zpos a + Zpos b) with (Zpos (a + b)) in *.
  cbn [binary_normalize].
  assert (Ex : (x == inject_Z (Zpos (a + b)) * 2 ^ ez)%Q).
  { unfold x. cbn [to_Q cond_Zopp].
    rewrite (dyadic_rescale (Zpos m1) e1 ez), (dyadic_rescale (Zpos m2) e2 ez) by lia.
    rewrite <- Ha, <- Hb'. change (Zpos (a + b)) with (Zpos a + Zpos b).
    rewrite inject_Z_plus. ring. }
  pose proof (digits2_pos_bound (a + b)) as [Hdl _].
  set (dz := Zpos (digits2_pos (a + b))) in *.
  assert (Hdz : dz + ez <= 62).
  { destruct (Z.le_gt_cases (dz + ez) 62) as [|Hgt]; [assumption|].
    assert (2 ^ (62 - ez) <= 2 ^ (dz - 1)) by (apply Z.pow_le_mono_r; lia).
    lia. }
  destruct (binary_round_spec false (a + b) ez) as (R & Hfl & Hex & Hne).
  { rewrite fexp64_eq. fold dz. unfold emax, prec. lia. }
  { unfold emax, prec. lia. }
  rewrite fexp64_eq in Hfl, Hex, Hne. fold dz in Hfl, Hex, Hne.
  split; [exact (is_float_finite _ _ _ _ Hfl)|].
  rewrite (to_Q_is_float _ _ _ Hfl), Ex.
  destruct (Z.le_gt_cases (Z.max (dz + ez - 53) (-1074)) ez) as [Hle|Hgt].
  - rewrite (Hex Hle), <- (dyadic_rescale (Zpos (a + b)) ez _ Hle).
    setoid_replace (inject_Z (Zpos (a + b)) * 2 ^ ez - inject_Z (Zpos (a + b)) * 2 ^ ez)%Q
      with 0%Q by ring.
    apply Qabs_nonneg.
  - set (e1r := Z.max (dz + ez - 53) (-1074)) in *.
    destruct (bounded_facts md ed Hb) as ((Hlo & _) & _ & _).
    set (c := Z.min ez ed).
    pose proof (nearest_canonical (a + b) md ez ed R c ltac:(rewrite fexp64_eq; fold dz e1r; lia)) as Hnear.
    rewrite fexp64_eq in Hnear. fold dz e1r in Hnear.
    specialize (Hnear (Hne ltac:(lia)) Hb ltac:(unfold c; lia) ltac:(unfold c; lia)).
    cbn [to_Q cond_Zopp].
    rewrite (dyadic_rescale R e1r c), (dyadic_rescale (Zpos (a + b)) ez c),
      (dyadic_rescale (Zpos md) ed c) by (unfold c; lia).
    set (V := R * 2 ^ (e1r - c)) in *.
    set (X := Zpos (a + b) * 2 ^ (ez - c)) in *.
    set (Y := Zpos md * 2 ^ (ed - c)) in *.
    setoid_replace (inject_Z V * 2 ^ c - inject_Z X * 2 ^ c)%Q
      with (inject_Z (V - X) * 2 ^ c)%Q
      by (unfold Z.sub; rewrite inject_Z_plus, inject_Z_opp; ring).
    setoid_replace (inject_Z Y * 2 ^ c - inject_Z X * 2 ^ c)%Q
      with (inject_Z (Y - X) * 2 ^ c)%Q
      by (unfold Z.sub; rewrite inject_Z_plus, inject_Z_opp; ring).
    rewrite !Qabs_dyadic.
    apply Qmult_le_r; [apply Qpow2_pos|].
    rewrite <- Zle_Qle. exact Hnear.
Qed.

(** *** Lines 121-122: back to a double *)

Lemma of_Z_to_Q (n : Z) :
  0 <= n < 2 ^ 53 ->
  (to_Q (of_Z n) == inject_Z n)%Q /\
  (n = 0 -> of_Z n = S754_zero false) /\
  (0 < n -> exists m e, of_Z n = S754_finite false m e /\
                        -52 <= e <= 0 /\ Zpos m = n * 2 ^ (- e)).
Proof.
  intros Hn. destruct (Z.eq_dec n 0) as [->|Hne].
  - split; [reflexivity|]. split; [reflexivity|lia].
  - destruct (of_Z_exact n) as (m & e & E & He & Hm); [lia|].
    replace (n <? 0) with false in E by (symmetry; apply Z.ltb_ge; lia).
    replace (Z.abs n) with n in Hm by lia.
    split; [|split; [lia|intros _; exists m, e; repeat split; (assumption || lia)]].
    rewrite E. cbn [to_Q cond_Zopp]. rewrite Hm.
    rewrite inject_Z_mult, <- (Qpow2_nonneg (- e)) by lia.
    rewrite <- Qmult_assoc, <- Qpower_plus by discriminate.
    replace (- e + e) with 0 by lia. cbn. ring.
Qed.

(** The quotient [(double)n / 1e9] is within [2^-54] of [n / 10^9], and
    at most 1. *)
Lemma div_1e9_Q (n : Z) :
  0 <= n <= 999999999 ->
  exists R e1,
    is_float (div (of_Z n) d_1e9) false R e1 /\
    -1074 <= e1 <= -53 /\ 0 <= R <= 2 ^ (- e1) /\
    (Qabs (to_Q (div (of_Z n) d_1e9) - inject_Z n * (1 # 1000000000))
       <= 1 # 18014398509481984)%Q.
Proof.
  intros Hn. destruct (Z.eq_dec n 0) as [->|Hne].
  - exists 0, (-53). cbn. repeat split; try lia; discriminate.
  - destruct (div_1e9_spec n ltac:(lia)) as (R & e1 & Hfl & He1 & Hne').
    exists R, e1. split; [exact Hfl|]. split; [exact He1|].
    pose proof (pow2_pos (- e1) ltac:(lia)) as HP.
    assert (HP53 : 2 ^ 53 <= 2 ^ (- e1)) by (apply Z.pow_le_mono_r; lia).
    change (2 ^ 53) with 9007199254740992 in HP53.
    set (P := 2 ^ (- e1)) in *.
    assert (HR : 0 <= R <= P) by (clearbody P; nia).
    split; [exact HR|].
    rewrite (to_Q_is_float _ _ _ Hfl), (Qpow2_neg e1) by lia. fold P.
    assert (HPq : (9007199254740992 <= inject_Z P)%Q).
    { change 9007199254740992%Q with (inject_Z 9007199254740992).
      rewrite <- Zle_Qle. exact HP53. }
    assert (Hq : (- (1000000000) <= 2 * (inject_Z R * 1000000000 - inject_Z n * inject_Z P)
                  <= 1000000000)%Q).
    { change 1000000000%Q with (inject_Z 1000000000).
      change 2%Q with (inject_Z 2).
      rewrite <- !inject_Z_mult, <- inject_Z_opp.
      unfold Qminus. rewrite <- inject_Z_opp, <- inject_Z_plus, <- inject_Z_mult.
      rewrite <- !Zle_Qle. clearbody P. lia. }
    set (a := inject_Z R) in *. set (p := inject_Z P) in *.
    set (nn := inject_Z n) in *. clearbody a p nn.
    assert (Hp0 : (0 < p)%Q) by lra.
    assert (Hinv : (p * / p == 1)%Q).
    { apply Qmult_inv_r. intros H0. rewrite H0 in Hp0. apply (Qlt_irrefl 0), Hp0. }
    set (t := (a * / p)%Q) in *.
    assert (Et : (a == t * p)%Q).
    { unfold t. rewrite <- Qmult_assoc, (Qmult_comm (/ p)), Hinv. ring. }
    clearbody t. apply Qabs_Qle_condition.
    assert (Ew : (2 * (a * 1000000000 - nn * p)
                  == 2000000000 * (p * (t - nn * (1 # 1000000000))))%Q).
    { rewrite Et. field. }
    rewrite Ew in Hq.
    set (w := (t - nn * (1 # 1000000000))%Q) in *. clearbody w.
    split.
    + apply Qnot_lt_le. intros Hc.
      assert ((9007199254740992 * - w <= p * - w))%Q by nra.
      nra.
    + apply Qnot_lt_le. intros Hc.
      assert ((9007199254740992 * w <= p * w))%Q by nra.
      nra.
Qed.

(** [(double)sec + (double)nsec / 1e9]: a finite double, and no double is
    nearer to [sec + q], where [q] is the rounded quotient. *)
Lemma double_of_timespec_nearest (sec nsec : Z) (md : positive) (ed : Z) :
  0 <= sec <= 2 ^ 31 ->
  0 <= nsec <= 999999999 ->
  bounded prec emax md ed = true ->
  let r := double_of_timespec {| tv_sec := sec; tv_nsec := nsec |} in
  let x := (inject_Z sec + to_Q (div (of_Z nsec) d_1e9))%Q in
  is_finite r = true /\
  (Qabs (to_Q r - x) <= Qabs (to_Q (S754_finite false md ed) - x))%Q.
Proof.
  intros Hsec Hnsec Hb. cbv zeta.
  assert (Hexact : forall x y, (to_Q y == x)%Q ->
            (Qabs (to_Q y - x) <= Qabs (to_Q (S754_finite false md ed) - x))%Q).
  { intros x y Ey. rewrite Ey.
    setoid_replace (x - x)%Q with 0%Q by ring. apply Qabs_nonneg. }
  destruct (div_1e9_Q nsec Hnsec) as (R & e1 & Hfl & He1 & HR & _).
  destruct (of_Z_to_Q sec) as (HQs & Hs0 & Hsp).
  { change (2 ^ 31) with 2147483648 in Hsec.
    change (2 ^ 53) with 9007199254740992. lia. }
  unfold double_of_timespec. cbn [tv_sec tv_nsec].
  revert Hfl. generalize (div (of_Z nsec) d_1e9). intros q Hfl.
  destruct (Z.eq_dec sec 0) as [Es|Es].
  - (* no seconds: the sum is the quotient *)
    subst sec. rewrite (Hs0 eq_refl).
    destruct q as [sq|sq| |sq mq eq]; cbn [is_float] in Hfl; try contradiction.
    + destruct Hfl as [-> _]. split; [reflexivity|].
      apply Hexact. cbn. reflexivity.
    + destruct Hfl as (-> & _). split; [reflexivity|].
      apply Hexact. cbn [add SFadd to_Q]. ring.
  - destruct (Hsp ltac:(lia)) as (ms & es & Eof & Hes & Hms).
    rewrite Eof in *.
    destruct q as [sq|sq| |sq mq eq]; cbn [is_float] in Hfl; try contradiction.
    + destruct Hfl as [-> _]. split; [reflexivity|].
      apply Hexact. cbn [add SFadd]. rewrite HQs. cbn [to_Q]. ring.
    + destruct Hfl as (-> & Hle & HmR).
      set (ez := Z.min es eq).
      assert (Hez1 : e1 <= ez) by (unfold ez; lia).
      pose proof (pow2_pos (- ez) ltac:(unfold ez; lia)) as Hpz.
      pose proof (pow2_pos (ez - e1) ltac:(lia)) as Hpd.
      pose proof (pow2_pos (eq - ez) ltac:(unfold ez; lia)) as Hpq.
      assert (H1 : Zpos ms * 2 ^ (es - ez) = sec * 2 ^ (- ez)).
      { rewrite Hms, <- Z.mul_assoc, <- pow2_split by (unfold ez; lia).
        do 2 f_equal. lia. }
      assert (H2 : Zpos mq * 2 ^ (eq - ez) <= 2 ^ (- ez)).
      { assert (E2 : Zpos mq * 2 ^ (eq - ez) * 2 ^ (ez - e1) = R).
        { rewrite <- HmR, <- Z.mul_assoc, <- pow2_split by (unfold ez; lia).
          do 2 f_equal. lia. }
        assert (E3 : 2 ^ (- e1) = 2 ^ (- ez) * 2 ^ (ez - e1)).
        { rewrite <- pow2_split by (unfold ez; lia). f_equal. lia. }
        rewrite E3 in HR.
        set (A := Zpos mq * 2 ^ (eq - ez)) in *.
        set (B := 2 ^ (- ez)) in *. set (C := 2 ^ (ez - e1)) in *.
        clearbody A B C. nia. }
      assert (Hz : Zpos ms * 2 ^ (es - ez) + Zpos mq * 2 ^ (eq - ez) < 2 ^ (62 - ez)).
      { rewrite H1.
        replace (62 - ez) with (62 + - ez) by lia.
        rewrite pow2_split by (unfold ez; lia).
        change (2 ^ 62) with 4611686018427387904.
        change (2 ^ 31) with 2147483648 in Hsec.
        set (A := Zpos mq * 2 ^ (eq - ez)) in *.
        set (B := 2 ^ (- ez)) in *. clearbody A B. nia. }
      destruct (add_nearest ms mq md es eq ed ltac:(fold ez; lia) Hz Hb) as [Hfin Hnear].
      split; [exact Hfin|].
      rewrite HQs in Hnear. exact Hnear.
Qed.

(** ** Lines 108-112: what [_timerfd_settime] passes to the kernel *)

Lemma timespec_of_double_defined (d : double) (i : Z) :
  valid d = true ->
  to_int d = Some i ->
  exists ts, timespec_of_double d = Some ts /\ -999999999 <= tv_nsec ts <= 999999999.
Proof.
  intros Hv Hi. destruct d as [s|s| |s md ed]; try discriminate Hi.
  - rewrite timespec_of_double_zero. eexists. split; [reflexivity|]. cbn. lia.
  - destruct (timespec_of_double_finite s md ed i Hv Hi) as (n & -> & Hn & _).
    eexists. split; [reflexivity|]. destruct s; cbn; lia.
Qed.

(** A duration of minus one nanosecond or below gives a negative seconds
    field or a negative nanoseconds field. *)
Lemma timespec_of_double_negative (d : double) (i : Z) :
  valid d = true ->
  to_int d = Some i ->
  (to_Q d <= - (1 # 1000000000))%Q ->
  exists ts, timespec_of_double d = Some ts /\ timespec_valid ts = false.
Proof.
  intros Hv Hi Hneg.
  destruct d as [s|s| |s md ed]; try discriminate Hi.
  { exfalso. cbn in Hneg. apply (Qle_not_lt _ _ Hneg). reflexivity. }
  destruct s.
  2:{ exfalso. cbn [to_Q cond_Zopp] in Hneg.
      pose proof (Qpow2_pos ed) as Hp.
      assert (Hm : (0 < inject_Z (Zpos md))%Q).
      { change 0%Q with (inject_Z 0). rewrite <- Zlt_Qlt. lia. }
      set (a := inject_Z (Zpos md)) in *. set (b := (2 ^ ed)%Q) in *.
      clearbody a b.
      assert (0 < a * b)%Q by nra.
      assert (- (1 # 1000000000) < 0)%Q by reflexivity.
      lra. }
  destruct (timespec_of_double_finite true md ed i Hv Hi)
    as (n & -> & Hn & Hz & Hk).
  eexists. split; [reflexivity|].
  unfold timespec_valid. cbn [tv_sec tv_nsec cond_Zopp].
  destruct (int_frac_part md ed) as (HI0 & Hdecn & Hdecp).
  destruct (Z.eq_dec (int_part md ed) 0) as [HI|HI].
  - (* the magnitude is below 1: the nanoseconds are at least 1 *)
    assert (Hed : ed < 0).
    { destruct (Z.lt_ge_cases ed 0) as [|Hge]; [assumption|].
      destruct (Hdecp Hge) as [HIv _].
      pose proof (pow2_pos ed Hge). nia. }
    destruct (Hdecn Hed) as [Hdec _]. rewrite HI in Hdec.
    destruct (Hk Hed) as [Hlow _].
    assert (H1 : 1 <= n).
    { apply Hlow.
      replace (frac_part md ed) with (Zpos md) by lia.
      cbn [to_Q cond_Zopp] in Hneg.
      rewrite (Qpow2_neg ed Hed) in Hneg.
      pose proof (inject_pow2_pos (- ed) ltac:(lia)) as Hp.
      set (P := 2 ^ (- ed)) in *.
      assert (HQ : (inject_Z P <= inject_Z (1000000000 * Zpos md))%Q).
      { rewrite inject_Z_mult.
        assert (Hopp : (inject_Z (- Zpos md) == - inject_Z (Zpos md))%Q)
          by (rewrite inject_Z_opp; reflexivity).
        rewrite Hopp in Hneg.
        assert (Hm : ((1 # 1000000000) <= inject_Z (Zpos md) * / inject_Z P)%Q) by lra.
        assert (Hm' : ((1 # 1000000000) * inject_Z P <= inject_Z (Zpos md))%Q).
        { apply (Qmult_le_r _ _ (/ inject_Z P)).
          - apply Qinv_lt_0_compat, Hp.
          - rewrite <- Qmult_assoc, Qmult_inv_r, Qmult_1_r; [exact Hm|].
            intros H0. rewrite H0 in Hp. apply (Qlt_irrefl 0), Hp. }
        change (inject_Z 1000000000) with (1000000000 # 1)%Q.
        lra. }
      rewrite <- Zle_Qle in HQ. lia. }
    destruct (Z.leb_spec 0 (- n)); [lia|].
    rewrite andb_false_r. reflexivity.
  - destruct (Z.leb_spec 0 (- int_part md ed)); [lia|]. reflexivity.
Qed.

Lemma to_int_finite (s : bool) (m : positive) (e : Z) (i : Z) :
  to_int (S754_finite s m e) = Some i ->
  i = cond_Zopp s (int_part m e) /\ C.in_int i = true.
Proof.
  unfold to_int, trunc. fold (int_part m e).
  destruct (C.in_int (cond_Zopp s (int_part m e))) eqn:Hr; [|discriminate].
  intros H. injection H as <-. split; [reflexivity|exact Hr].
Qed.

Lemma floor_split_nonneg (d : double) (i : Z) :
  valid d = true ->
  (0 <= to_Q d)%Q ->
  to_int d = Some i ->
  exists ts, timespec_of_double d = Some ts /\ floor_split d ts /\
             tv_sec ts = i /\ 0 <= i /\ 0 <= tv_nsec ts <= 999999999.
Proof.
  intros Hv Hpos Hi.
  destruct (timespec_of_double_nonneg d i Hv Hpos Hi) as (ts & E & Hs & Hn & Hk).
  exists ts. split; [exact E|]. split.
  - split; [exact Hs|]. cbv zeta in Hk |- *. lia.
  - assert (Hs0 : 0 <= tv_sec ts).
    { rewrite Hs. change 0 with (Qfloor 0). apply Qfloor_resp_le, Hpos. }
    assert (Ei : tv_sec ts = i).
    { destruct d as [s|s| |s md ed]; try discriminate Hi.
      - rewrite timespec_of_double_zero in E. injection E as <-.
        cbn in Hi. injection Hi as <-. reflexivity.
      - destruct (to_int_finite _ _ _ _ Hi) as [Ei _].
        destruct (timespec_of_double_finite s md ed i Hv Hi) as (n & E' & _).
        rewrite E' in E. injection E as <-. cbn [tv_sec]. symmetry. exact Ei. }
    repeat split; lia.
Qed.

(** In exact arithmetic the split is within one nanosecond of the
    duration. *)
Lemma floor_split_error (d : double) (ts : timespec) :
  floor_split d ts ->
  (Qabs (to_Q d - timespec_to_Q ts) <= 1 # 1000000000)%Q.
Proof.
  intros [Hs Hk]. cbv zeta in Hk. unfold timespec_to_Q. rewrite Hs.
  set (t := to_Q d) in *.
  set (iI := inject_Z (Qfloor t)) in *.
  set (x := (1000000000 * (t - iI))%Q) in *.
  pose proof (Qfloor_le x) as Hlo. pose proof (Qlt_floor x) as Hhi.
  rewrite inject_Z_plus in Hhi. change (inject_Z 1) with 1%Q in Hhi.
  assert (Hn : (inject_Z (tv_nsec ts) == inject_Z (Qfloor x) \/
                inject_Z (tv_nsec ts) == inject_Z (Qfloor x) + 1)%Q).
  { destruct Hk as [-> | ->]; [left; reflexivity|right].
    rewrite inject_Z_plus. reflexivity. }
  apply Qabs_Qle_condition.
  set (n := inject_Z (tv_nsec ts)) in *. set (k := inject_Z (Qfloor x)) in *.
  clearbody n k. unfold x in Hlo, Hhi. clear x Hk. clearbody iI t.
  destruct Hn as [Hn|Hn]; rewrite Hn; split; lra.
Qed.

(** Converted back in double precision, the split is within [2.1e-9] of
    the duration. *)
Lemma round_trip_nonneg (d : double) (i : Z) (ts : timespec) :
  valid d = true ->
  (0 <= to_Q d)%Q ->
  to_int d = Some i ->
  timespec_of_double d = Some ts ->
  is_finite (double_of_timespec ts) = true /\
  (Qabs (to_Q (double_of_timespec ts) - to_Q d) < 21 # 10000000000)%Q.
Proof.
  intros Hv Hpos Hi E.
  destruct (floor_split_nonneg d i Hv Hpos Hi) as (ts' & E' & Hfs & Hsec & Hi0 & Hn).
  rewrite E in E'. injection E' as <-.
  pose proof (floor_split_error d ts Hfs) as Herr.
  destruct d as [s|s| |s md ed]; try discriminate Hi.
  { rewrite timespec_of_double_zero in E. injection E as <-.
    split; reflexivity. }
  destruct s.
  { pose proof (to_Q_negative md ed) as Hneg.
    exfalso. apply (Qlt_irrefl 0). eapply Qle_lt_trans; eassumption. }
  destruct (to_int_finite _ _ _ _ Hi) as [_ Hr].
  assert (H31 : 0 <= tv_sec ts <= 2 ^ 31).
  { rewrite Hsec. unfold C.in_int, C.INT_MAX in Hr.
    apply andb_prop in Hr. destruct Hr as [_ Hr]. apply Z.leb_le in Hr. lia. }
  destruct (div_1e9_Q (tv_nsec ts) Hn) as (_ & _ & _ & _ & _ & Hq).
  destruct (double_of_timespec_nearest (tv_sec ts) (tv_nsec ts) md ed H31 Hn Hv)
    as [Hfin Hnear].
  destruct ts as [sec nsec]. cbn [tv_sec tv_nsec] in *.
  split; [exact Hfin|].
  unfold timespec_to_Q in Herr. cbn [tv_sec tv_nsec] in Herr.
  set (r := to_Q (double_of_timespec {| tv_sec := sec; tv_nsec := nsec |})) in *.
  set (q := to_Q (div (of_Z nsec) d_1e9)) in *.
  set (t := to_Q (S754_finite false md ed)) in *.
  set (a := inject_Z sec) in *. set (b := (inject_Z nsec * (1 # 1000000000))%Q) in *.
  clearbody r q t a b.
  apply Qabs_Qle_condition in Herr. apply Qabs_Qle_condition in Hq.
  assert (Hu : (Qabs (t - (a + q)) <= (1 # 1000000000) + (1 # 18014398509481984))%Q).
  { apply Qabs_Qle_condition. split; lra. }
  pose proof (Qle_trans _ _ _ Hnear Hu) as Hr'.
  apply Qabs_Qle_condition in Hr'. apply Qabs_Qle_condition in Hu.
  apply Qabs_Qlt_condition. split; lra.
Qed.

(** C10: for a non-negative finite double whose integral part fits in an
    [int], the nanoseconds computed by
    [(long int)(1e9 * (value - (int)value))] are between 0 and 999999999,
    and the kernel accepts the timespec. *)
Theorem nanoseconds_in_kernel_range (d : double) (i : Z) :
  valid d = true ->
  (0 <= to_Q d)%Q ->
  to_int d = Some i ->
  exists ts,
    timespec_of_double d = Some ts /\
    0 <= tv_nsec ts <= 999999999 /\
    timespec_valid ts = true.
Proof.
  intros Hv Hpos Hi.
  destruct (floor_split_nonneg d i Hv Hpos Hi) as (ts & E & _ & Hsec & Hi0 & Hn).
  exists ts. split; [exact E|]. split; [exact Hn|].
  unfold timespec_valid. rewrite Hsec.
  destruct (Z.leb_spec 0 i); [|lia].
  destruct (Z.leb_spec 0 (tv_nsec ts)); [|lia].
  destruct (Z.ltb_spec (tv_nsec ts) 1000000000); [reflexivity|lia].
Qed.

(** C2, as amended: for a non-negative finite double [d] whose integral
    part fits in an [int], the split (seconds, nanoseconds) is, in exact
    arithmetic, within [1e-9] of [d]; converted back by
    [(double)tv_sec + (double)tv_nsec / 1e9] in double precision it is a
    finite double within [2.1e-9] of [d]. *)
Theorem round_trip_within_2ns (d : double) (i : Z) :
  valid d = true ->
  (0 <= to_Q d)%Q ->
  to_int d = Some i ->
  exists ts,
    timespec_of_double d = Some ts /\
    (Qabs (to_Q d - timespec_to_Q ts) <= 1 # 1000000000)%Q /\
    is_finite (double_of_timespec ts) = true /\
    (Qabs (to_Q (double_of_timespec ts) - to_Q d) < 21 # 10000000000)%Q.
Proof.
  intros Hv Hpos Hi.
  destruct (floor_split_nonneg d i Hv Hpos Hi) as (ts & E & Hfs & _).
  exists ts. split; [exact E|]. split; [exact (floor_split_error d ts Hfs)|].
  exact (round_trip_nonneg d i ts Hv Hpos Hi E).
Qed.

(** C2 as stated fails at [d = 524288 + 103 * 2^-33]: the split is
    (524288, 11), which converts back to [524288 + 94 * 2^-33], at
    [9 * 2^-33 > 1e-9] from [d]. *)
Lemma round_trip_six_days_off :
  valid d_six_days = true /\
  (0 <= to_Q d_six_days)%Q /\
  timespec_of_double d_six_days = Some {| tv_sec := 524288; tv_nsec := 11 |} /\
  double_of_timespec {| tv_sec := 524288; tv_nsec := 11 |}
    = S754_finite false 4503599627370590 (-33) /\
  ~ (Qabs (to_Q (double_of_timespec {| tv_sec := 524288; tv_nsec := 11 |})
           - to_Q d_six_days) <= 1 # 1000000000)%Q.
Proof.
  split; [reflexivity|]. split; [apply Qle_bool_iff; reflexivity|].
  split; [vm_compute; reflexivity|]. split; [vm_compute; reflexivity|].
  intros H. apply Qle_bool_iff in H. vm_compute in H. discriminate H.
Qed.

(** Where C defines the conversion, x86-64 computes the same timespec. *)
Lemma timespec_of_double_x86_agrees (d : double) (ts : timespec) :
  timespec_of_double d = Some ts -> timespec_of_double_x86 d = ts.
Proof.
  unfold timespec_of_double, timespec_of_double_x86, to_long_x86, to_int_x86.
  destruct (to_long d) as [sec|]; [|discriminate].
  destruct (to_int d) as [i|]; [|discriminate].
  destruct (to_long (mul d_1e9 (sub d (of_Z i)))) as [nsec|]; [|discriminate].
  intros H. injection H as <-. reflexivity.
Qed.

(** The conversion at [d = 3e9]: [(int)value] is not defined, and no
    itimerspec is determined; on x86-64 the nanoseconds field is
    5147483648000000000. *)
Lemma split_3e9_undefined :
  valid d_3e9 = true /\
  (0 <= to_Q d_3e9)%Q /\
  timespec_of_double d_3e9 = None /\
  timespec_of_double_x86 d_3e9
    = {| tv_sec := 3000000000; tv_nsec := 5147483648000000000 |} /\
  ~ floor_split d_3e9 (timespec_of_double_x86 d_3e9).
Proof.
  split; [reflexivity|]. split; [apply Qle_bool_iff; reflexivity|].
  split; [vm_compute; reflexivity|]. split; [vm_compute; reflexivity|].
  intros [_ Hk]. vm_compute in Hk. destruct Hk as [Hk|Hk]; discriminate Hk.
Qed.
(** ** [_timerfd_settime_ns] *)

(** The seconds fields of the itimerspec of lines 68-72 are zero, and a
    nanosecond field is the argument when the argument fits in an [int]. *)
Lemma itimerspec_of_ns_fields (value interval : Z) :
  let its := itimerspec_of_ns (store_l_in_int value) (store_l_in_int interval) in
  tv_sec (it_value its) = 0 /\ tv_sec (it_interval its) = 0 /\
  (C.in_int value = true -> tv_nsec (it_value its) = value) /\
  (C.in_int interval = true -> tv_nsec (it_interval its) = interval).
Proof.
  cbn. unfold store_l_in_int. repeat split; intros H.
  - rewrite (to_int_id _ H). apply to_long_id, in_int_in_long, H.
  - rewrite (to_int_id _ H). apply to_long_id, in_int_in_long, H.
Qed.

(** Whatever the [int] variable holds after the parse, the nanosecond
    field is in the range of [int]. *)
Lemma itimerspec_of_ns_range (value interval : Z) :
  C.in_int value = true ->
  C.in_int (tv_nsec (it_value (itimerspec_of_ns value interval))) = true.
Proof.
  intros H. cbn. rewrite (to_long_id _ (in_int_in_long _ H)). exact H.
Qed.

(** ** [PyErr_SetFromErrno] *)

Lemma PyErr_SetFromErrno_OSError {K} (p : process K) :
  errno p <> C.EINTR \/ signals p = None ->
  PyErr_SetFromErrno p = (Raise (OSError (errno p)), p).
Proof.
  intros H. unfold PyErr_SetFromErrno, PyErr_CheckSignals.
  destruct (Z.eqb_spec (errno p) C.EINTR) as [E|N]; [|reflexivity].
  destruct H as [H|H]; [contradiction|].
  destruct p as [e k sg]. cbn in *. subst sg. reflexivity.
Qed.


Lemma PyErr_SetFromErrno_raises {K} (p : process K) :
  exists x p', PyErr_SetFromErrno p = (Raise x, p') /\
               errno p' = errno p /\ kernel p' = kernel p.
Proof.
  unfold PyErr_SetFromErrno, PyErr_CheckSignals.
  destruct (errno p =? C.EINTR); [destruct (signals p) as [x|]|];
    eexists; eexists; (split; [reflexivity|split; reflexivity]).
Qed.


Section Wrappers.

Context {K : Type} {libc : Libc K}.

(** C3, at the argument [initial_ns = 2^32 + 5], which format ["l"]
    accepts: the itimerspec passed to [timerfd_settime] has
    [it_value.tv_nsec = 5], not the argument. *)
Theorem settime_ns_truncates_to_int (p : process K) :
  _timerfd_settime_ns 3 0 4294967301 0 p =
    let '(result, old_value, p') :=
      timerfd_settime 3 0
        {| it_interval := {| tv_sec := 0; tv_nsec := 0 |};
           it_value := {| tv_sec := 0; tv_nsec := 5 |} |} p in
    if result =? -1 then PyErr_SetFromErrno p'
    else (Return (build_tuple old_value), p').
Proof. reflexivity. Qed.

(** C4, at the counter value [2^63]: a full read of 8 bytes returns the
    Python integer [-2^63]. *)
Theorem read_counter_2_63_negative (fd : Z) (p p' : process K) :
  C.in_int fd = true ->
  read fd p = (8, 9223372036854775808, p') ->
  _timerfd_read fd p = (Return (PyLong (-9223372036854775808)), p').
Proof.
  intros Hfd Hread. unfold _timerfd_read.
  rewrite (parse_i_in_int _ Hfd), Hread. reflexivity.
Qed.

(** A full read returns the counter itself as long as it is below [2^63]. *)
Lemma read_counter_small (fd buffer : Z) (p p' : process K) :
  C.in_int fd = true ->
  0 <= buffer < 2 ^ 63 ->
  read fd p = (8, buffer, p') ->
  _timerfd_read fd p = (Return (PyLong buffer), p').
Proof.
  intros Hfd Hb Hread. unfold _timerfd_read.
  rewrite (parse_i_in_int _ Hfd), Hread. cbn.
  unfold PyLong_FromLong. rewrite to_long_id; [reflexivity|].
  unfold C.in_long, C.LONG_MIN, C.LONG_MAX.
  apply andb_true_intro; split; apply Z.leb_le; lia.
Qed.

(** From [2^63] on, the count that is returned is the counter minus
    [2^64], a negative number. *)
Lemma read_counter_large (fd buffer : Z) (p p' : process K) :
  C.in_int fd = true ->
  2 ^ 63 <= buffer <= C.UINT64_MAX ->
  read fd p = (8, buffer, p') ->
  _timerfd_read fd p = (Return (PyLong (buffer - 2 ^ 64)), p').
Proof.
  intros Hfd Hb Hread. unfold C.UINT64_MAX in Hb. unfold _timerfd_read.
  rewrite (parse_i_in_int _ Hfd), Hread. cbn.
  unfold PyLong_FromLong, C.to_long, C.wrap_signed.
  change (2 ^ (64 - 1)) with 9223372036854775808.
  change (2 ^ 64) with 18446744073709551616 in *.
  change (2 ^ 63) with 9223372036854775808 in *.
  do 3 f_equal.
  rewrite <- (Z.mod_unique_pos (buffer + 9223372036854775808) 18446744073709551616
                1 (buffer - 9223372036854775808)); lia.
Qed.

(** C5: when [read] succeeds with a result other than 8, [_timerfd_read]
    sets [errno] to EIO and raises OSError with that code; it returns no
    count. *)
Theorem read_short_raises_EIO (fd result buffer : Z) (p p' : process K) :
  C.in_int fd = true ->
  read fd p = (result, buffer, p') ->
  result <> -1 ->
  result <> 8 ->
  _timerfd_read fd p = (Raise (OSError C.EIO), set_errno C.EIO p').
Proof.
  intros Hfd Hread Hok Hshort. unfold _timerfd_read.
  rewrite (parse_i_in_int _ Hfd), Hread.
  destruct (Z.eqb_spec result (-1)) as [E|_]; [contradiction|].
  destruct (Z.eqb_spec result 8) as [E|_]; [contradiction|].
  cbn [negb]. apply (PyErr_SetFromErrno_OSError (set_errno C.EIO p')).
  left. discriminate.
Qed.


(** C7: a successful [_timerfd_gettime] returns the pair whose components
    are [(double)tv_sec + (double)tv_nsec / 1e9] of [it_value] and of
    [it_interval], every operation being the double-precision one. *)
Theorem gettime_returns_reconstructed_pair
    (fd result : Z) (curr_value : itimerspec) (p p' : process K) :
  C.in_int fd = true ->
  timerfd_gettime fd p = (result, curr_value, p') ->
  result <> -1 ->
  _timerfd_gettime fd p =
    (Return
       (PyTuple2
          (PyFloat (add (of_Z (tv_sec (it_value curr_value)))
                        (div (of_Z (tv_nsec (it_value curr_value))) d_1e9)))
          (PyFloat (add (of_Z (tv_sec (it_interval curr_value)))
                        (div (of_Z (tv_nsec (it_interval curr_value))) d_1e9)))),
     p').
Proof.
  intros Hfd Hcall Hok. unfold _timerfd_gettime.
  rewrite (parse_i_in_int _ Hfd), Hcall.
  destruct (Z.eqb_spec result (-1)) as [E|_]; [contradiction|].
  reflexivity.
Qed.

(** C9: [_timerfd_gettime] calls nothing but [timerfd_gettime]. With a
    kernel for which that call is a query (it leaves the kernel state as
    it is, and its answer depends on the kernel state only), the function
    leaves the kernel state, hence the timer, as it is, and a second call
    returns what the first returned. *)
Theorem gettime_is_read_only (fd : Z) (p : process K) :
  (forall fd' q, kernel (snd (timerfd_gettime fd' q)) = kernel q) ->
  (forall fd' q q', kernel q = kernel q' ->
     fst (timerfd_gettime fd' q) = fst (timerfd_gettime fd' q')) ->
  kernel (snd (_timerfd_gettime fd p)) = kernel p /\
  (forall v, fst (_timerfd_gettime fd p) = Return v ->
     fst (_timerfd_gettime fd (snd (_timerfd_gettime fd p))) = Return v).
Proof.
  intros Hpure Hdet. unfold _timerfd_gettime.
  destruct (parse_i fd) as [fd'|]; cbn; [|split; [reflexivity|discriminate]].
  pose proof (Hpure fd' p) as Hk.
  destruct (timerfd_gettime fd' p) as [[r cv] p1] eqn:E1. cbn in Hk.
  destruct (PyErr_SetFromErrno_raises p1) as (x & q & Eerr & _ & Hq).
  destruct (r =? -1) eqn:Er.
  - rewrite Eerr. cbn [fst snd]. split; [congruence|discriminate].
  - cbn [fst snd]. split; [exact Hk|].
    intros v Hv.
    pose proof (Hdet fd' p1 p Hk) as Hsame. rewrite E1 in Hsame.
    destruct (timerfd_gettime fd' p1) as [[r2 cv2] p2]. cbn in Hsame.
    injection Hsame as -> ->. rewrite Er. exact Hv.
Qed.

(** C1, at [value = 3e9]: [(time_t)value] on line 108 is 3000000000 and
    the fractional remainder of [3e9] is 0, but [(int)value] on line 109
    is not defined and the call has no defined behaviour; as x86-64
    executes it, the itimerspec passed to [timerfd_settime] has
    [it_value.tv_nsec = 5147483648000000000]. *)
Theorem settime_3e9_nanoseconds (p : process K) :
  to_long d_3e9 = Some 3000000000 /\
  (to_Q d_3e9 == inject_Z 3000000000)%Q /\
  to_int d_3e9 = None /\
  _timerfd_settime 3 0 d_3e9 (S754_zero false) p = (Undefined, p) /\
  _timerfd_settime_x86 3 0 d_3e9 (S754_zero false) p =
    let '(result, old_value, p') :=
      timerfd_settime 3 0
        {| it_interval := {| tv_sec := 0; tv_nsec := 0 |};
           it_value := {| tv_sec := 3000000000;
                          tv_nsec := 5147483648000000000 |} |} p in
    if result =? -1 then PyErr_SetFromErrno p'
    else (Return (build_tuple old_value), p').
Proof.
  split; [reflexivity|]. split; [reflexivity|]. split; [reflexivity|].
  split; reflexivity.
Qed.

(** Where the integral parts fit in an [int], lines 108-112 do what they
    are meant to: when [value] and [interval] are non-negative finite
    doubles below [2^31], the itimerspec passed to [timerfd_settime] has,
    in each of the two timespecs, the floor of the duration as seconds,
    and as nanoseconds the floor of [10^9] times the fractional
    remainder, or one more (the product is rounded to a double before it
    is truncated). *)
Theorem settime_passes_floor_split
    (fd flags : Z) (value interval : double) (i j : Z) (p : process K) :
  C.in_int fd = true -> C.in_int flags = true ->
  valid value = true -> valid interval = true ->
  (0 <= to_Q value)%Q -> (0 <= to_Q interval)%Q ->
  to_int value = Some i -> to_int interval = Some j ->
  exists new_value,
    floor_split value (it_value new_value) /\
    floor_split interval (it_interval new_value) /\
    _timerfd_settime fd flags value interval p =
      let '(result, old_value, p') := timerfd_settime fd flags new_value p in
      if result =? -1 then PyErr_SetFromErrno p'
      else (Return (build_tuple old_value), p').
Proof.
  intros Hfd Hfl Hvv Hvi Hpv Hpi Hiv Hii.
  destruct (floor_split_nonneg value i Hvv Hpv Hiv) as (tv & Ev & Hfv & _).
  destruct (floor_split_nonneg interval j Hvi Hpi Hii) as (ti & Ei & Hfi & _).
  exists {| it_interval := ti; it_value := tv |}.
  split; [exact Hfv|]. split; [exact Hfi|].
  unfold _timerfd_settime, itimerspec_of_doubles.
  rewrite (parse_i_in_int _ Hfd), (parse_i_in_int _ Hfl), Ev, Ei. reflexivity.
Qed.

(** C8, as amended: when [value] or [interval] is at most [-1e-9] (both
    being finite doubles whose integral parts fit in an [int]), the
    itimerspec has a negative field; with a kernel that rejects such an
    itimerspec with EINVAL, [_timerfd_settime] raises OSError with that
    code and returns no tuple. *)
Theorem settime_negative_raises
    (fd flags : Z) (value interval : double) (i j : Z) (p : process K) :
  rejects_with_EINVAL libc ->
  C.in_int fd = true -> C.in_int flags = true ->
  valid value = true -> valid interval = true ->
  to_int value = Some i -> to_int interval = Some j ->
  (to_Q value <= - (1 # 1000000000))%Q \/ (to_Q interval <= - (1 # 1000000000))%Q ->
  exists new_value p',
    itimerspec_of_doubles value interval = Some new_value /\
    itimerspec_valid new_value = false /\
    errno p' = C.EINVAL /\
    _timerfd_settime fd flags value interval p = (Raise (OSError (errno p')), p').
Proof.
  intros Hrej Hfd Hfl Hvv Hvi Hiv Hii Hneg.
  assert (Hconv : exists new_value,
            itimerspec_of_doubles value interval = Some new_value /\
            itimerspec_valid new_value = false).
  { unfold itimerspec_of_doubles, itimerspec_valid.
    destruct Hneg as [Hneg|Hneg].
    - destruct (timespec_of_double_negative value i Hvv Hiv Hneg) as (tv & -> & Hinv).
      destruct (timespec_of_double_defined interval j Hvi Hii) as (ti & -> & _).
      eexists. split; [reflexivity|]. cbn [it_interval it_value].
      rewrite Hinv. apply andb_false_r.
    - destruct (timespec_of_double_negative interval j Hvi Hii Hneg) as (ti & -> & Hinv).
      destruct (timespec_of_double_defined value i Hvv Hiv) as (tv & -> & _).
      eexists. split; [reflexivity|]. cbn [it_interval it_value].
      rewrite Hinv. reflexivity. }
  destruct Hconv as (new_value & Econv & Hinv).
  destruct (Hrej fd flags new_value p Hinv) as [Hfail Herr].
  destruct (timerfd_settime fd flags new_value p) as [[result old_value] p'] eqn:Ecall.
  cbn [fst snd] in Hfail, Herr. subst result.
  exists new_value, p'. split; [exact Econv|]. split; [exact Hinv|].
  split; [exact Herr|].
  unfold _timerfd_settime.
  rewrite (parse_i_in_int _ Hfd), (parse_i_in_int _ Hfl), Econv, Ecall.
  apply PyErr_SetFromErrno_OSError. left. rewrite Herr. discriminate.
Qed.

End Wrappers.

(** ** The simulated kernel *)

Lemma Sim_rejects_with_EINVAL : rejects_with_EINVAL Sim.libc.
Proof.
  intros fd flags its p Hinv. cbn [timerfd_settime Sim.libc].
  unfold Sim.settime. rewrite Hinv, andb_false_r. split; reflexivity.
Qed.

Lemma Sim_rejects_invalid : rejects_invalid Sim.libc.
Proof.
  intros fd flags its p Hinv. apply Sim_rejects_with_EINVAL, Hinv.
Qed.

Lemma Sim_gettime_query :
  (forall fd q, kernel (snd (timerfd_gettime (Libc := Sim.libc) fd q)) = kernel q) /\
  (forall fd q q', kernel q = kernel q' ->
     fst (timerfd_gettime (Libc := Sim.libc) fd q)
     = fst (timerfd_gettime (Libc := Sim.libc) fd q')).
Proof.
  split.
  - intros fd q. cbn [timerfd_gettime Sim.libc]. unfold Sim.gettime.
    destruct (negb (Sim.is_timer fd q)); reflexivity.
  - intros fd q q' Hk. cbn [timerfd_gettime Sim.libc].
    unfold Sim.gettime, Sim.is_timer. rewrite Hk.
    destruct (negb ((fd =? 3) && Sim.is_open (kernel q'))); reflexivity.
Qed.

(** C8 as stated fails at [value = -1e-10]: the itimerspec is all zeros,
    which the kernel accepts; the call disarms the timer and returns the
    previous setting. *)
Lemma settime_minus_1e_10_accepted :
  valid d_minus_1e_10 = true /\
  ltb d_minus_1e_10 (S754_zero false) = true /\
  itimerspec_of_doubles d_minus_1e_10 (S754_zero false) = Some Sim.disarmed /\
  itimerspec_valid Sim.disarmed = true /\
  rejects_with_EINVAL Sim.libc /\
  _timerfd_settime (libc := Sim.libc) 3 0 d_minus_1e_10 (S754_zero false)
      (Sim.started 0)
    = (Return (PyTuple2 (PyFloat (S754_zero false)) (PyFloat (S754_zero false))),
       Sim.started 0).
Proof.
  split; [reflexivity|]. split; [reflexivity|].
  split; [vm_compute; reflexivity|]. split; [reflexivity|].
  split; [exact Sim_rejects_with_EINVAL|]. vm_compute. reflexivity.
Qed.


(** ** Examples *)

Example split_1_5 :
  timespec_of_double d_1_5 = Some {| tv_sec := 1; tv_nsec := 500000000 |}.
Proof. vm_compute. reflexivity. Qed.

(** The double nearest to 0.3 is below 0.3: [10^9] times it is below
    300000000, and is rounded to 300000000 before the truncation. *)
Example split_0_3 :
  timespec_of_double d_0_3 = Some {| tv_sec := 0; tv_nsec := 300000000 |} /\
  Qfloor (1000000000 * (to_Q d_0_3 - inject_Z (Qfloor (to_Q d_0_3)))) = 299999999.
Proof. split; vm_compute; reflexivity. Qed.

Example split_minus_0_5 :
  timespec_of_double d_minus_0_5 = Some {| tv_sec := 0; tv_nsec := -500000000 |}.
Proof. vm_compute. reflexivity. Qed.

Example back_1_5 :
  double_of_timespec {| tv_sec := 1; tv_nsec := 500000000 |} = d_1_5.
Proof. vm_compute. reflexivity. Qed.

Example create_monotonic :
  fst (_timerfd_create (libc := Sim.libc) 1 0 Sim.fresh) = Return (PyLong 3).
Proof. reflexivity. Qed.

Example create_bad_clock :
  fst (_timerfd_create (libc := Sim.libc) 99 0 Sim.fresh)
    = Raise (OSError C.EINVAL).
Proof. reflexivity. Qed.

(** A periodic timer of 10 ms: the previous setting is returned, and the
    new one is what [_timerfd_gettime] reports. *)
Example settime_ns_then_gettime :
  let '(previous, p) :=
    _timerfd_settime_ns (libc := Sim.libc) 3 0 10000000 10000000 (Sim.started 0) in
  previous = Return (PyTuple2 (PyFloat (S754_zero false)) (PyFloat (S754_zero false))) /\
  fst (_timerfd_gettime (libc := Sim.libc) 3 p)
    = Return (PyTuple2 (PyFloat d_0_01) (PyFloat d_0_01)).
Proof. vm_compute. split; reflexivity. Qed.

Example read_two_expirations :
  _timerfd_read (libc := Sim.libc) 3 (Sim.started 2)
    = (Return (PyLong 2), Sim.started 0).
Proof. reflexivity. Qed.

Example read_bad_descriptor :
  fst (_timerfd_read (libc := Sim.libc) 4 (Sim.started 2)) = Raise (OSError C.EBADF).
Proof. reflexivity. Qed.

Example read_descriptor_not_an_int :
  fst (_timerfd_read (libc := Sim.libc) 4294967296 (Sim.started 2))
    = Raise OverflowError.
Proof. reflexivity. Qed.

(** The kernel refuses what x86-64 makes of [3e9] seconds. *)
Example settime_3e9_refused :
  fst (_timerfd_settime_x86 (libc := Sim.libc) 3 0 d_3e9 (S754_zero false)
         (Sim.started 0))
    = Raise (OSError C.EINVAL).
Proof. vm_compute. reflexivity. Qed.

(** An interrupted read whose signal handler returns raises OSError with
    EINTR. *)
Example read_interrupted_handler_returns :
  fst (_timerfd_read (libc := Script.libc) 3 (Script.run (-1) C.EINTR Sim.disarmed 0))
    = Raise (OSError C.EINTR).
Proof. reflexivity. Qed.

(** ** The theorems at concrete inputs *)

Lemma read_counter_2_63_negative_witness :
  _timerfd_read (libc := Script.libc) 3
      (Script.run 8 0 Sim.disarmed 9223372036854775808)
    = (Return (PyLong (-9223372036854775808)),
       Script.run 8 0 Sim.disarmed 9223372036854775808).
Proof.
  apply (read_counter_2_63_negative (libc := Script.libc)); reflexivity.
Defined.

Lemma read_short_raises_EIO_witness :
  4 <> -1 /\ 4 <> 8 /\
  _timerfd_read (libc := Script.libc) 3 (Script.run 4 0 Sim.disarmed 0)
    = (Raise (OSError C.EIO), set_errno C.EIO (Script.run 4 0 Sim.disarmed 0)).
Proof.
  assert (H1 : 4 <> -1) by discriminate.
  assert (H2 : 4 <> 8) by discriminate.
  split; [exact H1|]. split; [exact H2|].
  exact (read_short_raises_EIO (libc := Script.libc) 3 4 0
           (Script.run 4 0 Sim.disarmed 0) (Script.run 4 0 Sim.disarmed 0)
           eq_refl eq_refl H1 H2).
Defined.


Lemma gettime_returns_reconstructed_pair_witness :
  let curr_value :=
    {| it_interval := {| tv_sec := 0; tv_nsec := 750000000 |};
       it_value := {| tv_sec := 1; tv_nsec := 500000000 |} |} in
  0 <> -1 /\
  _timerfd_gettime (libc := Script.libc) 3 (Script.run 0 0 curr_value 0)
    = (Return (PyTuple2 (PyFloat d_1_5) (PyFloat d_0_75)),
       Script.run 0 0 curr_value 0).
Proof.
  intros curr_value.
  assert (H : 0 <> -1) by discriminate.
  split; [exact H|].
  exact (gettime_returns_reconstructed_pair (libc := Script.libc) 3 0 curr_value
           (Script.run 0 0 curr_value 0) (Script.run 0 0 curr_value 0)
           eq_refl eq_refl H).
Defined.

Lemma gettime_is_read_only_witness :
  kernel (snd (_timerfd_gettime (libc := Sim.libc) 3 (Sim.started 2)))
    = kernel (Sim.started 2) /\
  (forall v,
     fst (_timerfd_gettime (libc := Sim.libc) 3 (Sim.started 2)) = Return v ->
     fst (_timerfd_gettime (libc := Sim.libc) 3
            (snd (_timerfd_gettime (libc := Sim.libc) 3 (Sim.started 2))))
       = Return v).
Proof.
  exact (gettime_is_read_only (libc := Sim.libc) 3 (Sim.started 2)
           (proj1 Sim_gettime_query) (proj2 Sim_gettime_query)).
Defined.

Lemma nanoseconds_in_kernel_range_witness :
  valid d_0_75 = true /\ to_int d_0_75 = Some 0 /\
  exists ts,
    timespec_of_double d_0_75 = Some ts /\
    0 <= tv_nsec ts <= 999999999 /\
    timespec_valid ts = true.
Proof.
  assert (H0 : (0 <= to_Q d_0_75)%Q) by (apply Qle_bool_iff; reflexivity).
  split; [reflexivity|]. split; [reflexivity|].
  exact (nanoseconds_in_kernel_range d_0_75 0 eq_refl H0 eq_refl).
Defined.

Lemma round_trip_within_2ns_witness :
  valid d_six_days = true /\ to_int d_six_days = Some 524288 /\
  exists ts,
    timespec_of_double d_six_days = Some ts /\
    (Qabs (to_Q d_six_days - timespec_to_Q ts) <= 1 # 1000000000)%Q /\
    is_finite (double_of_timespec ts) = true /\
    (Qabs (to_Q (double_of_timespec ts) - to_Q d_six_days) < 21 # 10000000000)%Q.
Proof.
  assert (H0 : (0 <= to_Q d_six_days)%Q) by (apply Qle_bool_iff; reflexivity).
  split; [reflexivity|]. split; [reflexivity|].
  exact (round_trip_within_2ns d_six_days 524288 eq_refl H0 eq_refl).
Defined.

Lemma settime_passes_floor_split_witness :
  exists new_value,
    floor_split d_1_5 (it_value new_value) /\
    floor_split d_0_75 (it_interval new_value) /\
    _timerfd_settime (libc := Sim.libc) 3 0 d_1_5 d_0_75 (Sim.started 0) =
      let '(result, old_value, p') :=
        timerfd_settime (Libc := Sim.libc) 3 0 new_value (Sim.started 0) in
      if result =? -1 then PyErr_SetFromErrno p'
      else (Return (build_tuple old_value), p').
Proof.
  assert (H1 : (0 <= to_Q d_1_5)%Q) by (apply Qle_bool_iff; reflexivity).
  assert (H2 : (0 <= to_Q d_0_75)%Q) by (apply Qle_bool_iff; reflexivity).
  exact (settime_passes_floor_split (libc := Sim.libc) 3 0 d_1_5 d_0_75 1 0
           (Sim.started 0) eq_refl eq_refl eq_refl eq_refl H1 H2 eq_refl eq_refl).
Defined.

Lemma settime_negative_raises_witness :
  (to_Q d_minus_0_5 <= - (1 # 1000000000))%Q /\
  exists new_value p',
    itimerspec_of_doubles d_minus_0_5 (S754_zero false) = Some new_value /\
    itimerspec_valid new_value = false /\
    errno p' = C.EINVAL /\
    _timerfd_settime (libc := Sim.libc) 3 0 d_minus_0_5 (S754_zero false)
        (Sim.started 0)
      = (Raise (OSError (errno p')), p').
Proof.
  assert (H : (to_Q d_minus_0_5 <= - (1 # 1000000000))%Q)
    by (apply Qle_bool_iff; reflexivity).
  split; [exact H|].
  exact (settime_negative_raises (libc := Sim.libc) 3 0 d_minus_0_5
           (S754_zero false) 0 0 (Sim.started 0) Sim_rejects_with_EINVAL
           eq_refl eq_refl eq_refl eq_refl eq_refl eq_refl (or_introl H)).
Defined.

(** * Further properties of the conversions and of the exported functions *)

(** *** Negation *)

Lemma binary_round_aux_opp (s : bool) (m e : Z) (l : location) :
  binary_round_aux prec emax (negb s) m e l
  = SFopp (binary_round_aux prec emax s m e l).
Proof.
  unfold binary_round_aux.
  destruct (shr_fexp prec emax m e l) as [mrs' e'].
  destruct (shr_fexp prec emax _ e' loc_Exact) as [mrs'' e''].
  destruct (shr_m mrs''); [reflexivity| |reflexivity].
  destruct (e'' <=? emax - prec); reflexivity.
Qed.

Lemma binary_round_opp (s : bool) (m : positive) (e : Z) :
  binary_round prec emax (negb s) m e = SFopp (binary_round prec emax s m e).
Proof.
  unfold binary_round. destruct (shl_align m e _) as [mz ez].
  apply binary_round_aux_opp.
Qed.

Lemma binary_normalize_opp (z e : Z) :
  z <> 0 ->
  binary_normalize prec emax (- z) e false
  = SFopp (binary_normalize prec emax z e false).
Proof.
  destruct z as [|p|p]; [contradiction| |]; intros _; cbn [Z.opp binary_normalize].
  - apply (binary_round_opp false).
  - change true with (negb false). rewrite (binary_round_opp false).
    destruct (binary_round prec emax false p e) as [[]|[]| |[] ? ?]; reflexivity.
Qed.

Lemma trunc_opp (x : double) :
  trunc (SFopp x) = option_map Z.opp (trunc x).
Proof.
  destruct x as [s|s| |s m e]; cbn; try reflexivity.
  destruct s; cbn; f_equal; lia.
Qed.

Lemma mul_opp_r (x y : double) :
  mul x (SFopp y) = SFopp (mul x y).
Proof.
  unfold mul, SFmul.
  destruct x as [sx|sx| |sx mx ex], y as [sy|sy| |sy my ey]; cbn [SFopp];
    try reflexivity; try (destruct sx, sy; reflexivity).
  rewrite <- binary_round_aux_opp. f_equal. destruct sx, sy; reflexivity.
Qed.

Lemma cond_Zopp_negb (s : bool) (z : Z) : cond_Zopp (negb s) z = - cond_Zopp s z.
Proof. destruct s; cbn; lia. Qed.

Lemma sub_opp_finite (sx sy : bool) (mx my : positive) (ex ey : Z) :
  let f := sub (S754_finite sx mx ex) (S754_finite sy my ey) in
  let f' := sub (S754_finite (negb sx) mx ex) (S754_finite (negb sy) my ey) in
  f' = SFopp f \/ (f = S754_zero false /\ f' = S754_zero false).
Proof.
  cbv zeta. unfold sub, SFsub. rewrite !cond_Zopp_negb.
  set (a := cond_Zopp sx _). set (b := cond_Zopp sy _).
  replace (- a - - b) with (- (a - b)) by lia.
  destruct (Z.eq_dec (a - b) 0) as [E|N].
  - right. rewrite E. split; reflexivity.
  - left. apply binary_normalize_opp, N.
Qed.

(** The two lines of the conversion on the negated double. *)
Lemma timespec_of_double_opp (d : double) (i : Z) (ts : timespec) :
  valid d = true ->
  to_int d = Some i ->
  C.in_int (- i) = true ->
  timespec_of_double d = Some ts ->
  timespec_of_double (SFopp d) = Some (neg_timespec ts).
Proof.
  intros Hv Hi Hni E.
  destruct d as [s|s| |s md ed]; try discriminate Hi.
  { rewrite timespec_of_double_zero in E. injection E as <-.
    cbn [SFopp]. rewrite timespec_of_double_zero. reflexivity. }
  destruct (to_int_finite _ _ _ _ Hi) as [Ei Hri].
  destruct (timespec_of_double_finite s md ed i Hv Hi) as (n & E' & Hn & _).
  rewrite E' in E. injection E as <-.
  (* the negated double has the opposite integral part *)
  assert (Hi' : to_int (S754_finite (negb s) md ed) = Some (- i)).
  { unfold to_int, trunc. fold (int_part md ed).
    rewrite cond_Zopp_negb, <- Ei, Hni. reflexivity. }
  (* the remainder and its product are negated *)
  unfold timespec_of_double in E' |- *. cbn [SFopp]. rewrite Hi'.
  rewrite Hi in E'.
  assert (Hsec : to_long (S754_finite (negb s) md ed) = Some (- cond_Zopp s (int_part md ed))).
  { unfold to_long, trunc. fold (int_part md ed).
    rewrite cond_Zopp_negb, <- Ei, (in_int_in_long _ Hni). reflexivity. }
  rewrite Hsec.
  destruct (to_long (S754_finite s md ed)) as [sec|]; [|discriminate E'].
  destruct (to_long (mul d_1e9 (sub (S754_finite s md ed) (of_Z i)))) as [nsec|] eqn:En;
    [|discriminate E'].
  injection E' as _ Ensec. subst nsec.
  assert (Hmul : trunc (mul d_1e9 (sub (S754_finite (negb s) md ed) (of_Z (- i))))
                 = option_map Z.opp
                     (trunc (mul d_1e9 (sub (S754_finite s md ed) (of_Z i))))).
  { destruct (Z.eq_dec i 0) as [->|Hi0].
    - cbn [Z.opp]. change (of_Z 0) with (S754_zero false).
      change (sub (S754_finite (negb s) md ed) (S754_zero false))
        with (SFopp (sub (S754_finite s md ed) (S754_zero false))).
      rewrite mul_opp_r. apply trunc_opp.
    - assert (Eo : of_Z (- i) = SFopp (of_Z i)) by (apply binary_normalize_opp, Hi0).
      destruct (of_Z_exact i) as (mi & ei & Eof & _).
      { unfold C.in_int, C.INT_MIN, C.INT_MAX in Hri.
        apply andb_prop in Hri. destruct Hri as [H1 H2].
        apply Z.leb_le in H1. apply Z.leb_le in H2.
        change (2 ^ 31) with 2147483648 in *.
        change (2 ^ 53) with 9007199254740992. lia. }
      rewrite Eo, Eof. cbn [SFopp].
      destruct (sub_opp_finite s (i <? 0) md mi ed ei) as [-> | [-> ->]].
      + rewrite mul_opp_r. apply trunc_opp.
      + reflexivity. }
  unfold to_long in En |- *. rewrite Hmul.
  destruct (trunc (mul d_1e9 (sub (S754_finite s md ed) (of_Z i)))) as [z|];
    [|discriminate En].
  destruct (C.in_long z) eqn:Hz; [|discriminate En].
  injection En as ->. cbn [option_map].
  rewrite in_long_small.
  - unfold neg_timespec. cbn [tv_sec tv_nsec]. reflexivity.
  - change (2 ^ 31) with 2147483648. destruct s; cbn [cond_Zopp]; lia.
Qed.


(** *** Every finite double within the range of [int] *)

Lemma to_Q_sign (s : bool) (m : positive) (e : Z) :
  if s then (to_Q (S754_finite s m e) < 0)%Q else (0 < to_Q (S754_finite s m e))%Q.
Proof.
  destruct s; [apply to_Q_negative|].
  cbn [to_Q cond_Zopp].
  pose proof (Qpow2_pos e) as Hp.
  assert (Hm : (0 < inject_Z (Zpos m))%Q).
  { change 0%Q with (inject_Z 0). rewrite <- Zlt_Qlt. lia. }
  set (a := inject_Z (Zpos m)) in *. set (b := (2 ^ e)%Q) in *.
  clearbody a b. nra.
Qed.

(** X1: for every finite double whose integral part fits in an [int], of
    either sign, lines 108-109 are defined; the seconds are [(int)value],
    the nanoseconds are within 999999999 of zero, and neither field has
    the sign opposite to the duration's. *)
Theorem split_defined_signs_bounds (d : double) (i : Z) :
  valid d = true ->
  to_int d = Some i ->
  exists ts,
    timespec_of_double d = Some ts /\
    tv_sec ts = i /\
    -999999999 <= tv_nsec ts <= 999999999 /\
    ((0 <= to_Q d)%Q -> 0 <= tv_sec ts /\ 0 <= tv_nsec ts) /\
    ((to_Q d <= 0)%Q -> tv_sec ts <= 0 /\ tv_nsec ts <= 0).
Proof.
  intros Hv Hi. destruct d as [s|s| |s md ed]; try discriminate Hi.
  - rewrite timespec_of_double_zero. eexists. split; [reflexivity|].
    cbn in Hi. injection Hi as <-. cbn. repeat split; lia.
  - destruct (to_int_finite _ _ _ _ Hi) as [Ei _].
    destruct (timespec_of_double_finite s md ed i Hv Hi) as (n & -> & Hn & _).
    destruct (int_frac_part md ed) as (HI0 & _).
    eexists. split; [reflexivity|]. cbn [tv_sec tv_nsec].
    split; [symmetry; exact Ei|].
    pose proof (to_Q_sign s md ed) as Hs.
    destruct s; cbn [cond_Zopp] in *.
    + split; [lia|]. split; [|intros _; lia].
      intros Hpos. exfalso. apply (Qlt_irrefl 0). eapply Qle_lt_trans; eassumption.
    + split; [lia|]. split; [intros _; lia|].
      intros Hneg. exfalso. apply (Qlt_irrefl 0). eapply Qlt_le_trans; eassumption.
Qed.

(** X2: lines 108-109 are odd in the duration: when [d] is converted to
    [ts] and [-(int)d] fits in an [int] too, [-d] is converted to [ts]
    with both fields negated. *)
Theorem split_of_negated (d : double) (i : Z) (ts : timespec) :
  valid d = true ->
  to_int d = Some i ->
  C.in_int (- i) = true ->
  timespec_of_double d = Some ts ->
  timespec_of_double (SFopp d) = Some (neg_timespec ts).
Proof. exact (timespec_of_double_opp d i ts). Qed.

(** X3: a duration of one nanosecond or more is never converted to the
    all-zero timespec, which would disarm the timer: the seconds or the
    nanoseconds are at least 1, and the kernel accepts the timespec. *)
Theorem split_at_least_1ns_nonzero (d : double) (i : Z) :
  valid d = true ->
  to_int d = Some i ->
  ((1 # 1000000000) <= to_Q d)%Q ->
  exists ts,
    timespec_of_double d = Some ts /\
    (1 <= tv_sec ts \/ 1 <= tv_nsec ts) /\
    timespec_valid ts = true.
Proof.
  intros Hv Hi Hd.
  assert (Hpos : (0 <= to_Q d)%Q).
  { apply Qle_trans with (1 # 1000000000)%Q; [discriminate|exact Hd]. }
  destruct (floor_split_nonneg d i Hv Hpos Hi) as (ts & E & [Hs Hk] & Hsec & Hi0 & Hn).
  exists ts. split; [exact E|]. split.
  - destruct (Z.eq_dec (tv_sec ts) 0) as [E0|N0]; [right|left; lia].
    cbv zeta in Hk. rewrite <- Hs, E0 in Hk.
    assert (H1 : 1 <= Qfloor (1000000000 * (to_Q d - inject_Z 0))).
    { change 1 with (Qfloor 1). apply Qfloor_resp_le.
      change (inject_Z 0) with 0%Q. set (t := to_Q d) in *. clearbody t. lra. }
    lia.
  - unfold timespec_valid. rewrite Hsec.
    destruct (Z.leb_spec 0 i); [|lia].
    destruct (Z.leb_spec 0 (tv_nsec ts)); [|lia].
    destruct (Z.ltb_spec (tv_nsec ts) 1000000000); [reflexivity|lia].
Qed.

(** *** Whole seconds *)

Lemma trunc_of_Z (n : Z) : Z.abs n < 2 ^ 53 -> trunc (of_Z n) = Some n.
Proof.
  intros Hn. destruct (Z.eq_dec n 0) as [->|N0]; [reflexivity|].
  destruct (of_Z_exact n ltac:(lia)) as (m & e & -> & He & Hm).
  cbn [trunc]. f_equal.
  rewrite Z.shiftl_div_pow2, Hm, Z.div_mul by
    (try lia; pose proof (pow2_pos (- e) ltac:(lia)); lia).
  destruct (Z.ltb_spec n 0); cbn [cond_Zopp]; lia.
Qed.

Lemma sub_diag_finite (s : bool) (m : positive) (e : Z) :
  sub (S754_finite s m e) (S754_finite s m e) = S754_zero false.
Proof.
  unfold sub, SFsub. rewrite Z.min_id, Z.sub_diag. reflexivity.
Qed.

(** X4: a whole number of seconds is passed to the kernel and read back
    exactly: [(double)sec + 0 / 1e9] is [(double)sec], and lines 108-109
    take it back to [sec] seconds and 0 nanoseconds. *)
Theorem whole_seconds_round_trip (sec : Z) :
  C.in_int sec = true ->
  double_of_timespec {| tv_sec := sec; tv_nsec := 0 |} = of_Z sec /\
  (to_Q (of_Z sec) == inject_Z sec)%Q /\
  timespec_of_double (of_Z sec) = Some {| tv_sec := sec; tv_nsec := 0 |}.
Proof.
  intros Hr.
  assert (Hb : Z.abs sec < 2 ^ 53).
  { unfold C.in_int, C.INT_MIN, C.INT_MAX in Hr.
    apply andb_prop in Hr. destruct Hr as [H1 H2].
    apply Z.leb_le in H1. apply Z.leb_le in H2.
    change (2 ^ 31) with 2147483648 in *.
    change (2 ^ 53) with 9007199254740992. lia. }
  destruct (Z.eq_dec sec 0) as [->|N0].
  { split; [reflexivity|]. split; reflexivity. }
  destruct (of_Z_exact sec ltac:(lia)) as (m & e & Eof & He & Hm).
  split; [|split].
  - unfold double_of_timespec. cbn [tv_sec tv_nsec]. rewrite Eof. reflexivity.
  - rewrite Eof. cbn [to_Q].
    destruct (Z.eq_dec e 0) as [->|Ne].
    + rewrite Z.pow_0_r in Hm. change (2 ^ 0)%Q with 1%Q.
      replace (cond_Zopp (sec <? 0) (Zpos m)) with sec
        by (destruct (Z.ltb_spec sec 0); cbn [cond_Zopp]; lia).
      ring.
    + rewrite (Qpow2_neg e) by lia.
      pose proof (inject_pow2_pos (- e) ltac:(lia)) as Hp.
      replace (cond_Zopp (sec <? 0) (Zpos m)) with (sec * 2 ^ (- e))
        by (destruct (Z.ltb_spec sec 0); cbn [cond_Zopp]; lia).
      rewrite inject_Z_mult. field.
      intros H0. rewrite H0 in Hp. apply (Qlt_irrefl 0), Hp.
  - pose proof (trunc_of_Z sec Hb) as Ht.
    unfold timespec_of_double, to_long, to_int. rewrite Ht, Hr, (in_int_in_long _ Hr).
    rewrite Eof, sub_diag_finite. reflexivity.
Qed.


(** *** Accuracy of [(double)tv_sec + (double)tv_nsec / 1e9] *)

(** The rounding of a sum of two positive normal-range doubles has a
    relative error of at most [2^-53]. *)
Lemma add_relative_error (m1 m2 : positive) (e1 e2 : Z) :
  let ez := Z.min e1 e2 in
  -1074 <= ez <= 62 ->
  Zpos m1 * 2 ^ (e1 - ez) + Zpos m2 * 2 ^ (e2 - ez) < 2 ^ (62 - ez) ->
  let x := (to_Q (S754_finite false m1 e1) + to_Q (S754_finite false m2 e2))%Q in
  let r := add (S754_finite false m1 e1) (S754_finite false m2 e2) in
  is_finite r = true /\
  (0 <= to_Q r)%Q /\
  (Qabs (to_Q r - x) * inject_Z (2 ^ 53) <= x)%Q.
Proof.
  intros ez Hez Hz x r.
  unfold r, add, SFadd. fold ez.
  destruct (shl_align_spec m1 e1 ez ltac:(lia)) as (a & -> & Ha & _).
  destruct (shl_align_spec m2 e2 ez ltac:(lia)) as (b & -> & Hb' & _).
  cbn [fst cond_Zopp]. rewrite <- Ha, <- Hb' in Hz.
  change (Zpos a + Zpos b) with (Zpos (a + b)) in *.
  cbn [binary_normalize].
  assert (Ex : (x == inject_Z (Zpos (a + b)) * 2 ^ ez)%Q).
  { unfold x. cbn [to_Q cond_Zopp].
    rewrite (dyadic_rescale (Zpos m1) e1 ez), (dyadic_rescale (Zpos m2) e2 ez) by lia.
    rewrite <- Ha, <- Hb'. change (Zpos (a + b)) with (Zpos a + Zpos b).
    rewrite inject_Z_plus. ring. }
  pose proof (digits2_pos_bound (a + b)) as [Hdl _].
  set (dz := Zpos (digits2_pos (a + b))) in *.
  assert (Hdz : dz + ez <= 62).
  { destruct (Z.le_gt_cases (dz + ez) 62) as [|Hgt]; [assumption|].
    assert (2 ^ (62 - ez) <= 2 ^ (dz - 1)) by (apply Z.pow_le_mono_r; lia).
    lia. }
  destruct (binary_round_spec false (a + b) ez) as (R & Hfl & Hex & Hne).
  { rewrite fexp64_eq. fold dz. unfold emax, prec. lia. }
  { unfold emax, prec. lia. }
  rewrite fexp64_eq in Hfl, Hex, Hne. fold dz in Hfl, Hex, Hne.
  set (e1r := Z.max (dz + ez - 53) (-1074)) in *.
  split; [exact (is_float_finite _ _ _ _ Hfl)|].
  rewrite (to_Q_is_float _ _ _ Hfl), Ex.
  pose proof (Qpow2_pos ez) as Hpz. pose proof (Qpow2_pos e1r) as Hpr.
  destruct (Z.le_gt_cases e1r ez) as [Hle|Hgt].
  - rewrite (Hex Hle), <- (dyadic_rescale (Zpos (a + b)) ez _ Hle).
    assert (Hzq : (0 < inject_Z (Zpos (a + b)))%Q).
    { change 0%Q with (inject_Z 0). rewrite <- Zlt_Qlt. lia. }
    split.
    + apply Qmult_le_0_compat; apply Qlt_le_weak; assumption.
    + setoid_replace (inject_Z (Zpos (a + b)) * 2 ^ ez - inject_Z (Zpos (a + b)) * 2 ^ ez)%Q
        with 0%Q by ring.
      change (Qabs 0) with 0%Q. rewrite Qmult_0_l.
      apply Qmult_le_0_compat; apply Qlt_le_weak; assumption.
  - assert (Ee : e1r = dz + ez - 53) by (unfold e1r in *; lia).
    specialize (Hne ltac:(lia)).
    pose proof (pow2_pos (e1r - ez) ltac:(lia)) as HD.
    assert (HzD : 2 ^ (e1r - ez) * 2 ^ 52 <= Zpos (a + b)).
    { rewrite <- pow2_split by lia.
      replace (e1r - ez + 52) with (dz - 1) by lia. exact Hdl. }
    set (D := 2 ^ (e1r - ez)) in *.
    assert (HR0 : 0 <= R) by (clearbody D; nia).
    split.
    + apply Qmult_le_0_compat; [|apply Qlt_le_weak, Hpr].
      change 0%Q with (inject_Z 0). rewrite <- Zle_Qle. exact HR0.
    + rewrite (dyadic_rescale R e1r ez) by lia. fold D.
      setoid_replace (inject_Z (R * D) * 2 ^ ez - inject_Z (Zpos (a + b)) * 2 ^ ez)%Q
        with (inject_Z (R * D - Zpos (a + b)) * 2 ^ ez)%Q
        by (unfold Z.sub; rewrite inject_Z_plus, inject_Z_opp; ring).
      rewrite Qabs_dyadic.
      setoid_replace (inject_Z (Z.abs (R * D - Zpos (a + b))) * 2 ^ ez * inject_Z (2 ^ 53))%Q
        with (inject_Z (Z.abs (R * D - Zpos (a + b)) * 2 ^ 53) * 2 ^ ez)%Q
        by (rewrite inject_Z_mult; ring).
      apply Qmult_le_r; [exact Hpz|].
      rewrite <- Zle_Qle.
      change (2 ^ 53) with 9007199254740992. change (2 ^ 52) with 4503599627370496 in HzD.
      clearbody D. lia.
Qed.


(** The error of the conversion on lines 81, 121 and 151. *)
Lemma double_of_timespec_error (sec nsec : Z) :
  0 <= sec <= 2 ^ 31 ->
  0 <= nsec <= 999999999 ->
  let ts := {| tv_sec := sec; tv_nsec := nsec |} in
  is_finite (double_of_timespec ts) = true /\
  (0 <= to_Q (double_of_timespec ts))%Q /\
  (Qabs (to_Q (double_of_timespec ts) - timespec_to_Q ts)
     <= inject_Z (sec + 2) * (1 # 9007199254740992))%Q.
Proof.
  intros Hsec Hnsec. cbv zeta.
  unfold timespec_to_Q, double_of_timespec. cbn [tv_sec tv_nsec].
  destruct (div_1e9_Q nsec Hnsec) as (R & e1 & Hfl & He1 & HR & Hq).
  destruct (of_Z_to_Q sec) as (HQs & Hs0 & Hsp).
  { change (2 ^ 31) with 2147483648 in Hsec.
    change (2 ^ 53) with 9007199254740992. lia. }
  assert (Hs : (0 <= inject_Z sec)%Q)
    by (change 0%Q with (inject_Z 0); rewrite <- Zle_Qle; lia).
  rewrite inject_Z_plus. change (inject_Z 2) with 2%Q.
  (* the quotient is between 0 and 1 *)
  assert (Hq01 : (0 <= to_Q (div (of_Z nsec) d_1e9) <= 1)%Q).
  { rewrite (to_Q_is_float _ _ _ Hfl), (Qpow2_neg e1) by lia.
    pose proof (inject_pow2_pos (- e1) ltac:(lia)) as Hp.
    assert (H0 : (0 <= inject_Z R)%Q)
      by (change 0%Q with (inject_Z 0); rewrite <- Zle_Qle; lia).
    assert (H1 : (inject_Z R <= inject_Z (2 ^ (- e1)))%Q)
      by (rewrite <- Zle_Qle; lia).
    split.
    - apply Qmult_le_0_compat; [exact H0|].
      apply Qlt_le_weak, Qinv_lt_0_compat, Hp.
    - apply Qle_shift_div_r; [exact Hp|]. rewrite Qmult_1_l. exact H1. }
  revert Hfl Hq Hq01. generalize (div (of_Z nsec) d_1e9). intros q Hfl Hq Hq01.
  set (b := (inject_Z nsec * (1 # 1000000000))%Q) in *.
  set (s := inject_Z sec) in *.
  apply Qabs_Qle_condition in Hq.
  assert (Hexact : forall y, (to_Q y == s + to_Q q)%Q ->
            (0 <= to_Q y)%Q /\
            (Qabs (to_Q y - (s + b)) <= (s + 2) * (1 # 9007199254740992))%Q).
  { intros y Ey. rewrite Ey. split; [lra|].
    apply Qabs_Qle_condition. split; lra. }
  destruct (Z.eq_dec sec 0) as [Es|Es].
  - assert (Es0 : (s == 0)%Q) by (unfold s; rewrite Es; reflexivity).
    rewrite (Hs0 Es).
    destruct q as [sq|sq| |sq mq eq]; cbn [is_float] in Hfl; try contradiction.
    + destruct Hfl as [-> _]. split; [reflexivity|].
      apply Hexact. cbn [add SFadd to_Q]. rewrite Es0. ring.
    + destruct Hfl as (-> & _). split; [reflexivity|].
      apply Hexact. cbn [add SFadd]. rewrite Es0. ring.
  - destruct (Hsp ltac:(lia)) as (ms & es & Eof & Hes & Hms).
    rewrite Eof in *.
    destruct q as [sq|sq| |sq mq eq]; cbn [is_float] in Hfl; try contradiction.
    + destruct Hfl as [-> _]. split; [reflexivity|].
      apply Hexact. cbn [add SFadd]. rewrite HQs. cbn [to_Q]. ring.
    + destruct Hfl as (-> & Hle & HmR).
      set (ez := Z.min es eq).
      assert (Hez1 : e1 <= ez) by (unfold ez; lia).
      pose proof (pow2_pos (- ez) ltac:(unfold ez; lia)) as Hpz.
      pose proof (pow2_pos (ez - e1) ltac:(lia)) as Hpd.
      pose proof (pow2_pos (eq - ez) ltac:(unfold ez; lia)) as Hpq.
      assert (H1 : Zpos ms * 2 ^ (es - ez) = sec * 2 ^ (- ez)).
      { rewrite Hms, <- Z.mul_assoc, <- pow2_split by (unfold ez; lia).
        do 2 f_equal. lia. }
      assert (H2 : Zpos mq * 2 ^ (eq - ez) <= 2 ^ (- ez)).
      { assert (E2 : Zpos mq * 2 ^ (eq - ez) * 2 ^ (ez - e1) = R).
        { rewrite <- HmR, <- Z.mul_assoc, <- pow2_split by (unfold ez; lia).
          do 2 f_equal. lia. }
        assert (E3 : 2 ^ (- e1) = 2 ^ (- ez) * 2 ^ (ez - e1)).
        { rewrite <- pow2_split by (unfold ez; lia). f_equal. lia. }
        rewrite E3 in HR.
        set (A := Zpos mq * 2 ^ (eq - ez)) in *.
        set (B := 2 ^ (- ez)) in *. set (C := 2 ^ (ez - e1)) in *.
        clearbody A B C. nia. }
      assert (Hz : Zpos ms * 2 ^ (es - ez) + Zpos mq * 2 ^ (eq - ez) < 2 ^ (62 - ez)).
      { rewrite H1.
        replace (62 - ez) with (62 + - ez) by lia.
        rewrite pow2_split by (unfold ez; lia).
        change (2 ^ 62) with 4611686018427387904.
        change (2 ^ 31) with 2147483648 in Hsec.
        set (A := Zpos mq * 2 ^ (eq - ez)) in *.
        set (B := 2 ^ (- ez)) in *. clearbody A B. nia. }
      destruct (add_relative_error ms mq es eq ltac:(fold ez; lia) Hz)
        as (Hfin & Hr0 & Hrel).
      split; [exact Hfin|]. split; [exact Hr0|].
      rewrite HQs in Hrel. fold s in Hrel.
      change (inject_Z (2 ^ 53)) with 9007199254740992%Q in Hrel.
      set (r := to_Q (add (S754_finite false ms es) (S754_finite false mq eq))) in *.
      set (qv := to_Q (S754_finite false mq eq)) in *.
      pose proof (Qle_Qabs (r - (s + qv))) as Hu1.
      pose proof (Qle_Qabs (- (r - (s + qv)))) as Hu2.
      rewrite Qabs_opp in Hu2.
      set (u := Qabs (r - (s + qv))) in *.
      clearbody r qv u s b.
      apply Qabs_Qle_condition. split; lra.
Qed.

(** X5: for a timespec as the kernel reports it (seconds up to [2^31],
    nanoseconds below [10^9]), the double returned to Python is finite,
    non-negative and within [(tv_sec + 2) * 2^-53] of the exact value
    [tv_sec + tv_nsec / 10^9]. *)
Theorem double_of_timespec_accuracy (ts : timespec) :
  0 <= tv_sec ts <= 2 ^ 31 ->
  0 <= tv_nsec ts <= 999999999 ->
  is_finite (double_of_timespec ts) = true /\
  (0 <= to_Q (double_of_timespec ts))%Q /\
  (Qabs (to_Q (double_of_timespec ts) - timespec_to_Q ts)
     <= inject_Z (tv_sec ts + 2) * (1 # 9007199254740992))%Q.
Proof.
  destruct ts as [sec nsec]. cbn [tv_sec tv_nsec].
  exact (double_of_timespec_error sec nsec).
Qed.

(** X6: up to 4503597 seconds (about 52 days) the double keeps every
    nanosecond: two different timespecs as the kernel reports them are
    converted to two different doubles. *)
Theorem double_of_timespec_injective (ts1 ts2 : timespec) :
  0 <= tv_sec ts1 <= 4503597 -> 0 <= tv_nsec ts1 <= 999999999 ->
  0 <= tv_sec ts2 <= 4503597 -> 0 <= tv_nsec ts2 <= 999999999 ->
  ts1 <> ts2 ->
  double_of_timespec ts1 <> double_of_timespec ts2.
Proof.
  destruct ts1 as [s1 n1], ts2 as [s2 n2]. cbn [tv_sec tv_nsec].
  intros Hs1 Hn1 Hs2 Hn2 Hne E. apply Hne.
  destruct (double_of_timespec_error s1 n1) as (_ & _ & H1);
    [change (2 ^ 31) with 2147483648; lia|exact Hn1|].
  destruct (double_of_timespec_error s2 n2) as (_ & _ & H2);
    [change (2 ^ 31) with 2147483648; lia|exact Hn2|].
  cbv zeta in H1, H2. rewrite E in H1.
  unfold timespec_to_Q in H1, H2. cbn [tv_sec tv_nsec] in H1, H2.
  apply Qabs_Qle_condition in H1. apply Qabs_Qle_condition in H2.
  rewrite inject_Z_plus in H1, H2. change (inject_Z 2) with 2%Q in H1, H2.
  assert (Hw : -1 < (s1 - s2) * 1000000000 + (n1 - n2) < 1).
  { assert (Hq : (inject_Z (-1) < inject_Z ((s1 - s2) * 1000000000 + (n1 - n2))
                  < inject_Z 1)%Q).
    { unfold Z.sub. rewrite !inject_Z_plus, inject_Z_mult, inject_Z_plus, !inject_Z_opp.
      change (inject_Z 1000000000) with 1000000000%Q.
      change (inject_Z 1) with 1%Q. change (inject_Z (-1)) with (-1 # 1)%Q.
      assert (B1 : (0 <= inject_Z s1 <= 4503597)%Q).
      { change 0%Q with (inject_Z 0). change 4503597%Q with (inject_Z 4503597).
        rewrite <- !Zle_Qle. exact Hs1. }
      assert (B2 : (0 <= inject_Z s2 <= 4503597)%Q).
      { change 0%Q with (inject_Z 0). change 4503597%Q with (inject_Z 4503597).
        rewrite <- !Zle_Qle. exact Hs2. }
      set (r := to_Q (double_of_timespec {| tv_sec := s2; tv_nsec := n2 |})) in *.
      set (a1 := inject_Z s1) in *. set (a2 := inject_Z s2) in *.
      set (b1 := inject_Z n1) in *. set (b2 := inject_Z n2) in *.
      clearbody r a1 a2 b1 b2. split; lra. }
    rewrite <- !Zlt_Qlt in Hq. exact Hq. }
  assert (s1 = s2 /\ n1 = n2) as [-> ->] by lia.
  reflexivity.
Qed.


(** ** More on the exported functions *)

Section MoreWrappers.

Context {K : Type} {libc : Libc K}.

(** X7: a full read of 8 bytes never raises; the count returned is the
    counter read as a signed 64-bit integer: equal to the counter modulo
    [2^64], within the range of [long], and the counter itself exactly
    when the counter is below [2^63]. *)
Theorem read_returns_signed_counter (fd buffer : Z) (p p' : process K) :
  C.in_int fd = true ->
  0 <= buffer <= C.UINT64_MAX ->
  read fd p = (8, buffer, p') ->
  exists count,
    _timerfd_read fd p = (Return (PyLong count), p') /\
    C.in_long count = true /\
    count mod 2 ^ 64 = buffer /\
    (count = buffer <-> buffer < 2 ^ 63).
Proof.
  intros Hfd Hb Hread. unfold C.UINT64_MAX in Hb.
  change (2 ^ 64) with 18446744073709551616 in *.
  change (2 ^ 63) with 9223372036854775808.
  destruct (Z.lt_ge_cases buffer 9223372036854775808) as [Hlt|Hge].
  - exists buffer. split; [|split; [|split]].
    + apply read_counter_small; [exact Hfd| |exact Hread].
      change (2 ^ 63) with 9223372036854775808. lia.
    + unfold C.in_long, C.LONG_MIN, C.LONG_MAX.
      change (2 ^ 63) with 9223372036854775808.
      apply andb_true_intro. split; apply Z.leb_le; lia.
    + apply Z.mod_small. lia.
    + split; intros; [exact Hlt|reflexivity].
  - exists (buffer - 18446744073709551616). split; [|split; [|split]].
    + apply (read_counter_large fd buffer p p' Hfd); [|exact Hread].
      unfold C.UINT64_MAX. change (2 ^ 63) with 9223372036854775808.
      change (2 ^ 64) with 18446744073709551616. lia.
    + unfold C.in_long, C.LONG_MIN, C.LONG_MAX.
      change (2 ^ 63) with 9223372036854775808.
      apply andb_true_intro. split; apply Z.leb_le; lia.
    + symmetry. apply (Z.mod_unique_pos _ _ (-1)); lia.
    + split; intros; lia.
Qed.

(** X8: an argument that does not fit its C type makes each of the five
    functions raise OverflowError with the process state as it was: no
    call to the C library is made. *)
Theorem argument_out_of_range_raises_OverflowError :
  (forall clockid flags (p : process K),
      C.in_int clockid = false \/ C.in_int flags = false ->
      _timerfd_create clockid flags p = (Raise OverflowError, p)) /\
  (forall fd flags value interval (p : process K),
      C.in_int fd = false \/ C.in_int flags = false ->
      _timerfd_settime fd flags value interval p = (Raise OverflowError, p)) /\
  (forall fd flags value interval (p : process K),
      C.in_int fd = false \/ C.in_int flags = false \/
      C.in_long value = false \/ C.in_long interval = false ->
      _timerfd_settime_ns fd flags value interval p = (Raise OverflowError, p)) /\
  (forall fd (p : process K),
      C.in_int fd = false ->
      _timerfd_gettime fd p = (Raise OverflowError, p)) /\
  (forall fd (p : process K),
      C.in_int fd = false ->
      _timerfd_read fd p = (Raise OverflowError, p)).
Proof.
  repeat split.
  - intros clockid flags p [H|H]; unfold _timerfd_create, parse_i; rewrite H;
      [reflexivity|destruct (C.in_int clockid); reflexivity].
  - intros fd flags value interval p [H|H]; unfold _timerfd_settime, parse_i;
      rewrite H; [reflexivity|destruct (C.in_int fd); reflexivity].
  - intros fd flags value interval p H.
    unfold _timerfd_settime_ns, parse_i, parse_l.
    destruct (C.in_int fd); [|reflexivity].
    destruct (C.in_int flags); [|reflexivity].
    destruct (C.in_long value); [|reflexivity].
    destruct (C.in_long interval); [|reflexivity].
    destruct H as [H|[H|[H|H]]]; discriminate H.
  - intros fd p H. unfold _timerfd_gettime, parse_i. rewrite H. reflexivity.
  - intros fd p H. unfold _timerfd_read, parse_i. rewrite H. reflexivity.
Qed.

(** X9: [_timerfd_settime_ns] can only set durations below one second:
    the itimerspec it passes has both seconds fields zero and both
    nanoseconds fields within the range of [int], and when the call
    succeeds with a kernel that rejects what is not a valid time, the
    nanoseconds are between 0 and 999999999. *)
Theorem settime_ns_sets_below_one_second
    (fd flags value interval : Z) (p : process K) :
  C.in_int fd = true -> C.in_int flags = true ->
  C.in_long value = true -> C.in_long interval = true ->
  exists new_value,
    _timerfd_settime_ns fd flags value interval p =
      (let '(result, old_value, p') := timerfd_settime fd flags new_value p in
       if result =? -1 then PyErr_SetFromErrno p'
       else (Return (build_tuple old_value), p')) /\
    tv_sec (it_value new_value) = 0 /\ tv_sec (it_interval new_value) = 0 /\
    C.in_int (tv_nsec (it_value new_value)) = true /\
    C.in_int (tv_nsec (it_interval new_value)) = true /\
    (rejects_invalid libc ->
     forall v, fst (_timerfd_settime_ns fd flags value interval p) = Return v ->
     0 <= tv_nsec (it_value new_value) <= 999999999 /\
     0 <= tv_nsec (it_interval new_value) <= 999999999).
Proof.
  intros Hfd Hfl Hv Hi.
  exists (itimerspec_of_ns (store_l_in_int value) (store_l_in_int interval)).
  assert (Ecall : _timerfd_settime_ns fd flags value interval p =
      (let '(result, old_value, p') :=
         timerfd_settime fd flags
           (itimerspec_of_ns (store_l_in_int value) (store_l_in_int interval)) p in
       if result =? -1 then PyErr_SetFromErrno p'
       else (Return (build_tuple old_value), p'))).
  { unfold _timerfd_settime_ns.
    rewrite (parse_i_in_int _ Hfd), (parse_i_in_int _ Hfl),
      (parse_l_in_long _ Hv), (parse_l_in_long _ Hi). reflexivity. }
  split; [exact Ecall|]. split; [reflexivity|]. split; [reflexivity|].
  assert (Hrv : C.in_int (tv_nsec (it_value
            (itimerspec_of_ns (store_l_in_int value) (store_l_in_int interval)))) = true).
  { apply itimerspec_of_ns_range, to_int_range. }
  assert (Hri : C.in_int (tv_nsec (it_interval
            (itimerspec_of_ns (store_l_in_int value) (store_l_in_int interval)))) = true).
  { unfold itimerspec_of_ns, store_l_in_int. cbn [it_interval tv_nsec].
    rewrite (to_long_id _ (in_int_in_long _ (to_int_range interval))).
    apply to_int_range. }
  split; [exact Hrv|]. split; [exact Hri|].
  intros Hrej v Hret. rewrite Ecall in Hret.
  set (nv := itimerspec_of_ns (store_l_in_int value) (store_l_in_int interval)) in *.
  destruct (itimerspec_valid nv) eqn:Hval.
  - unfold itimerspec_valid, timespec_valid in Hval.
    repeat (apply andb_prop in Hval; destruct Hval as [Hval ?]).
    repeat match goal with
           | H : (_ <=? _) = true |- _ => apply Z.leb_le in H
           | H : (_ <? _) = true |- _ => apply Z.ltb_lt in H
           | H : _ && _ = true |- _ => apply andb_prop in H; destruct H
           end.
    lia.
  - pose proof (Hrej fd flags nv p Hval) as Hfail.
    destruct (timerfd_settime fd flags nv p) as [[r old] p'].
    cbn [fst] in Hfail. subst r. cbn [Z.eqb Pos.eqb] in Hret.
    destruct (PyErr_SetFromErrno_raises p') as (x & q & Eerr & _).
    rewrite Eerr in Hret. discriminate Hret.
Qed.

(** X10: with [fd] and [flags] in the range of [int] and doubles in
    canonical form, [_timerfd_settime] has defined behaviour exactly when
    both durations are finite with an integral part that fits in an
    [int]; NaN, the infinities and durations from [2^31] on are outside. *)
Theorem settime_defined_iff
    (fd flags : Z) (value interval : double) (p : process K) :
  C.in_int fd = true -> C.in_int flags = true ->
  valid value = true -> valid interval = true ->
  (fst (_timerfd_settime fd flags value interval p) <> Undefined
   <-> (exists i j, to_int value = Some i /\ to_int interval = Some j)).
Proof.
  intros Hfd Hfl Hvv Hvi. unfold _timerfd_settime.
  rewrite (parse_i_in_int _ Hfd), (parse_i_in_int _ Hfl).
  unfold itimerspec_of_doubles. split.
  - intros Hdef.
    destruct (timespec_of_double value) as [tv|] eqn:Ev;
      [|exfalso; apply Hdef; reflexivity].
    destruct (timespec_of_double interval) as [ti|] eqn:Ei;
      [|exfalso; apply Hdef; reflexivity].
    unfold timespec_of_double in Ev, Ei.
    destruct (to_long value); [|discriminate Ev].
    destruct (to_int value) as [i|]; [|discriminate Ev].
    destruct (to_long interval); [|discriminate Ei].
    destruct (to_int interval) as [j|]; [|discriminate Ei].
    exists i, j. split; reflexivity.
  - intros (i & j & Hi & Hj).
    destruct (timespec_of_double_defined value i Hvv Hi) as (tv & -> & _).
    destruct (timespec_of_double_defined interval j Hvi Hj) as (ti & -> & _).
    destruct (timerfd_settime fd flags _ p) as [[r old] p'].
    destruct (PyErr_SetFromErrno_raises p') as (x & q & -> & _).
    destruct (r =? -1); discriminate.
Qed.

(** X11: setting a timer and asking for it composes to a round trip. With
    non-negative durations whose integral parts fit in an [int],
    [_timerfd_settime] followed by [_timerfd_gettime] returns, for each
    field the kernel reports as it was set, a double within 2.1
    nanoseconds of the duration that was passed. *)
Theorem settime_then_gettime
    (fd flags : Z) (value interval : double) (i j : Z) (p : process K) :
  C.in_int fd = true -> C.in_int flags = true ->
  valid value = true -> valid interval = true ->
  (0 <= to_Q value)%Q -> (0 <= to_Q interval)%Q ->
  to_int value = Some i -> to_int interval = Some j ->
  exists new_value,
    itimerspec_of_doubles value interval = Some new_value /\
    forall old_value curr_value p1 p2,
      timerfd_settime fd flags new_value p = (0, old_value, p1) ->
      timerfd_gettime fd p1 = (0, curr_value, p2) ->
      _timerfd_settime fd flags value interval p =
        (Return (build_tuple old_value), p1) /\
      exists v' i',
        _timerfd_gettime fd p1 = (Return (PyTuple2 (PyFloat v') (PyFloat i')), p2) /\
        (it_value curr_value = it_value new_value ->
         (Qabs (to_Q v' - to_Q value) < 21 # 10000000000)%Q) /\
        (it_interval curr_value = it_interval new_value ->
         (Qabs (to_Q i' - to_Q interval) < 21 # 10000000000)%Q).
Proof.
  intros Hfd Hfl Hvv Hvi Hv0 Hi0 Hi Hj.
  destruct (timespec_of_double_defined value i Hvv Hi) as (tv & Ev & _).
  destruct (timespec_of_double_defined interval j Hvi Hj) as (ti & Ei & _).
  exists {| it_interval := ti; it_value := tv |}.
  split; [unfold itimerspec_of_doubles; rewrite Ev, Ei; reflexivity|].
  intros old_value curr_value p1 p2 Hset Hget. split.
  - unfold _timerfd_settime, itimerspec_of_doubles.
    rewrite (parse_i_in_int _ Hfd), (parse_i_in_int _ Hfl), Ev, Ei, Hset.
    reflexivity.
  - exists (double_of_timespec (it_value curr_value)),
           (double_of_timespec (it_interval curr_value)).
    split; [|split].
    + unfold _timerfd_gettime. rewrite (parse_i_in_int _ Hfd), Hget. reflexivity.
    + intros ->. cbn [it_value].
      apply (round_trip_nonneg value i tv Hvv Hv0 Hi Ev).
    + intros ->. cbn [it_interval].
      apply (round_trip_nonneg interval j ti Hvi Hi0 Hj Ei).
Qed.

End MoreWrappers.

(** ** The further properties at concrete inputs *)

Lemma split_defined_signs_bounds_witness :
  valid d_minus_0_5 = true /\ to_int d_minus_0_5 = Some 0 /\
  exists ts,
    timespec_of_double d_minus_0_5 = Some ts /\
    tv_sec ts = 0 /\
    -999999999 <= tv_nsec ts <= 999999999 /\
    ((0 <= to_Q d_minus_0_5)%Q -> 0 <= tv_sec ts /\ 0 <= tv_nsec ts) /\
    ((to_Q d_minus_0_5 <= 0)%Q -> tv_sec ts <= 0 /\ tv_nsec ts <= 0).
Proof.
  split; [reflexivity|]. split; [reflexivity|].
  exact (split_defined_signs_bounds d_minus_0_5 0 eq_refl eq_refl).
Defined.

Lemma split_of_negated_witness :
  timespec_of_double d_1_5 = Some {| tv_sec := 1; tv_nsec := 500000000 |} /\
  timespec_of_double (SFopp d_1_5)
    = Some (neg_timespec {| tv_sec := 1; tv_nsec := 500000000 |}).
Proof.
  split; [reflexivity|].
  exact (split_of_negated d_1_5 1 {| tv_sec := 1; tv_nsec := 500000000 |}
           eq_refl eq_refl eq_refl eq_refl).
Defined.

Lemma split_at_least_1ns_nonzero_witness :
  ((1 # 1000000000) <= to_Q d_0_01)%Q /\
  exists ts,
    timespec_of_double d_0_01 = Some ts /\
    (1 <= tv_sec ts \/ 1 <= tv_nsec ts) /\
    timespec_valid ts = true.
Proof.
  assert (H : ((1 # 1000000000) <= to_Q d_0_01)%Q)
    by (apply Qle_bool_iff; reflexivity).
  split; [exact H|].
  exact (split_at_least_1ns_nonzero d_0_01 0 eq_refl eq_refl H).
Defined.

Lemma whole_seconds_round_trip_witness :
  C.in_int 86400 = true /\
  double_of_timespec {| tv_sec := 86400; tv_nsec := 0 |} = of_Z 86400 /\
  (to_Q (of_Z 86400) == inject_Z 86400)%Q /\
  timespec_of_double (of_Z 86400) = Some {| tv_sec := 86400; tv_nsec := 0 |}.
Proof.
  split; [reflexivity|].
  exact (whole_seconds_round_trip 86400 eq_refl).
Defined.

Lemma double_of_timespec_accuracy_witness :
  let ts := {| tv_sec := 1; tv_nsec := 500000000 |} in
  is_finite (double_of_timespec ts) = true /\
  (0 <= to_Q (double_of_timespec ts))%Q /\
  (Qabs (to_Q (double_of_timespec ts) - timespec_to_Q ts)
     <= inject_Z (tv_sec ts + 2) * (1 # 9007199254740992))%Q.
Proof.
  intros ts.
  assert (H1 : 0 <= tv_sec ts <= 2 ^ 31)
    by (split; apply Z.leb_le; reflexivity).
  assert (H2 : 0 <= tv_nsec ts <= 999999999)
    by (split; apply Z.leb_le; reflexivity).
  exact (double_of_timespec_accuracy ts H1 H2).
Defined.

Lemma double_of_timespec_injective_witness :
  double_of_timespec {| tv_sec := 4503597; tv_nsec := 500000000 |}
    <> double_of_timespec {| tv_sec := 4503597; tv_nsec := 500000001 |}.
Proof.
  apply double_of_timespec_injective; cbn [tv_sec tv_nsec];
    try (split; apply Z.leb_le; reflexivity).
  discriminate.
Defined.

Lemma read_returns_signed_counter_witness :
  0 <= 18446744073709551615 <= C.UINT64_MAX /\
  exists count,
    _timerfd_read (libc := Script.libc) 3
        (Script.run 8 0 Sim.disarmed 18446744073709551615)
      = (Return (PyLong count), Script.run 8 0 Sim.disarmed 18446744073709551615) /\
    C.in_long count = true /\
    count mod 2 ^ 64 = 18446744073709551615 /\
    (count = 18446744073709551615 <-> 18446744073709551615 < 2 ^ 63).
Proof.
  assert (H : 0 <= 18446744073709551615 <= C.UINT64_MAX)
    by (split; apply Z.leb_le; reflexivity).
  split; [exact H|].
  exact (read_returns_signed_counter (libc := Script.libc) 3 18446744073709551615
           (Script.run 8 0 Sim.disarmed 18446744073709551615)
           (Script.run 8 0 Sim.disarmed 18446744073709551615)
           eq_refl H eq_refl).
Defined.

Lemma argument_out_of_range_raises_OverflowError_witness :
  let p := Sim.started 1 in
  _timerfd_create (libc := Sim.libc) 2147483648 0 p = (Raise OverflowError, p) /\
  _timerfd_settime (libc := Sim.libc) 3 (-2147483649) d_1_5 d_0_75 p
    = (Raise OverflowError, p) /\
  _timerfd_settime_ns (libc := Sim.libc) 3 0 9223372036854775808 0 p
    = (Raise OverflowError, p) /\
  _timerfd_gettime (libc := Sim.libc) 4294967299 p = (Raise OverflowError, p) /\
  _timerfd_read (libc := Sim.libc) 4294967299 p = (Raise OverflowError, p).
Proof.
  intros p.
  destruct (argument_out_of_range_raises_OverflowError (libc := Sim.libc))
    as (Hcreate & Hsettime & Hsettime_ns & Hgettime & Hread).
  split; [apply (Hcreate 2147483648 0 p); left; reflexivity|].
  split; [apply (Hsettime 3 (-2147483649) d_1_5 d_0_75 p); right; reflexivity|].
  split; [apply (Hsettime_ns 3 0 9223372036854775808 0 p);
          right; right; left; reflexivity|].
  split; [apply (Hgettime 4294967299 p); reflexivity|].
  apply (Hread 4294967299 p); reflexivity.
Defined.

Lemma settime_ns_sets_below_one_second_witness :
  exists new_value,
    _timerfd_settime_ns (libc := Sim.libc) 3 0 4294967301 1000000 (Sim.started 0) =
      (let '(result, old_value, p') :=
         timerfd_settime (Libc := Sim.libc) 3 0 new_value (Sim.started 0) in
       if result =? -1 then PyErr_SetFromErrno p'
       else (Return (build_tuple old_value), p')) /\
    tv_sec (it_value new_value) = 0 /\ tv_sec (it_interval new_value) = 0 /\
    C.in_int (tv_nsec (it_value new_value)) = true /\
    C.in_int (tv_nsec (it_interval new_value)) = true /\
    (rejects_invalid Sim.libc ->
     forall v,
       fst (_timerfd_settime_ns (libc := Sim.libc) 3 0 4294967301 1000000
              (Sim.started 0)) = Return v ->
       0 <= tv_nsec (it_value new_value) <= 999999999 /\
       0 <= tv_nsec (it_interval new_value) <= 999999999).
Proof.
  exact (settime_ns_sets_below_one_second (libc := Sim.libc) 3 0 4294967301 1000000
           (Sim.started 0) eq_refl eq_refl eq_refl eq_refl).
Defined.

Lemma settime_defined_iff_witness :
  fst (_timerfd_settime (libc := Sim.libc) 3 0 d_1_5 d_0_75 (Sim.started 0))
    <> Undefined
  <-> (exists i j, to_int d_1_5 = Some i /\ to_int d_0_75 = Some j).
Proof.
  exact (settime_defined_iff (libc := Sim.libc) 3 0 d_1_5 d_0_75 (Sim.started 0)
           eq_refl eq_refl eq_refl eq_refl).
Defined.

Lemma settime_then_gettime_witness :
  exists new_value,
    itimerspec_of_doubles d_1_5 d_0_75 = Some new_value /\
    forall old_value curr_value p1 p2,
      timerfd_settime (Libc := Sim.libc) 3 0 new_value (Sim.started 0)
        = (0, old_value, p1) ->
      timerfd_gettime (Libc := Sim.libc) 3 p1 = (0, curr_value, p2) ->
      _timerfd_settime (libc := Sim.libc) 3 0 d_1_5 d_0_75 (Sim.started 0) =
        (Return (build_tuple old_value), p1) /\
      exists v' i',
        _timerfd_gettime (libc := Sim.libc) 3 p1
          = (Return (PyTuple2 (PyFloat v') (PyFloat i')), p2) /\
        (it_value curr_value = it_value new_value ->
         (Qabs (to_Q v' - to_Q d_1_5) < 21 # 10000000000)%Q) /\
        (it_interval curr_value = it_interval new_value ->
         (Qabs (to_Q i' - to_Q d_0_75) < 21 # 10000000000)%Q).
Proof.
  assert (H1 : (0 <= to_Q d_1_5)%Q) by (apply Qle_bool_iff; reflexivity).
  assert (H2 : (0 <= to_Q d_0_75)%Q) by (apply Qle_bool_iff; reflexivity).
  exact (settime_then_gettime (libc := Sim.libc) 3 0 d_1_5 d_0_75 1 0
           (Sim.started 0) eq_refl eq_refl eq_refl eq_refl H1 H2 eq_refl eq_refl).
Defined.
